(** * ytui_music: the session-coordination core of [yt.py]

    A shallow embedding of the playback wrapper ([AudioPlayer]), the search
    result widget ([SearchResultItem]) and the application handlers
    ([YTPlayerApp]) of [src/yt.py], followed by the properties of the
    specification that concern them.

    Conventions.
    - Seconds reported by the engine ([time_pos], [duration]) are
      rationals [Q], as every finite float is one. Comparison, [max] and
      [int()] are exact on them; true division, product and difference
      round to the nearest binary64 float ([Py.round64]), as Python's do,
      and give an infinity beyond the range of the floats.
    - The volume is an integer ([Z]), as the volume levels of the
      specification are; [delta] is an [int] in the source.
    - A mutable Python object (the player, the shared thumbnail cache, a
      widget) is a field of the state that is threaded through every
      handler. A handler that cannot raise is a function from state to
      state; one that can is a computation in [YTPlayerApp.M], which keeps
      the state written so far when an exception is raised.
    - A worker is split at its one [await]: [run_worker] records it as
      pending, and the rest of its body runs, in one piece, when the
      blocking call answers. Logging to the debug file is left out. *)

From Stdlib Require Import ZArith QArith Strings.Byte.
From stdpp Require Import base option list strings gmap pretty.
Close Scope Q_scope.
Local Open Scope Z_scope.

(** ** Python built-ins used by the source *)

Module Py.

(** An instance of a subclass of [Exception]: the name of its class, the
    names of the classes between that class and [Exception], and the text
    [str(e)] gives. *)
Record exn := Instance {
  exn_class : string;
  exn_bases : list string;
  exn_msg : string
}.

(** An instance of a class that derives from [Exception] directly. *)
Definition Exception (cls msg : string) : exn := Instance cls [] msg.

(** [isinstance(e, cls)] *)
Definition isinstance (e : exn) (cls : string) : bool :=
  bool_decide (cls ∈ exn_class e :: exn_bases e).

Inductive outcome (A : Type) : Type :=
| Returned (a : A)
| Raised (e : exn).
Arguments Returned {A} a.
Arguments Raised {A} e.

Definition bind {A B} (k : A -> outcome B) (m : outcome A) : outcome B :=
  match m with
  | Returned a => k a
  | Raised e => Raised e
  end.

(** [try: body except Exception as e: handler(e)] *)
Definition try_except {A} (body : outcome A) (handler : exn -> outcome A)
  : outcome A :=
  match body with
  | Returned a => Returned a
  | Raised e => handler e
  end.

(** [getattr(obj, name, default)]: an [AttributeError], of that class or
    of a subclass, is turned into the default; anything else is raised. *)
Definition getattr_default {A} (attr : outcome A) (default : A) : outcome A :=
  match attr with
  | Returned a => Returned a
  | Raised e =>
      if isinstance e "AttributeError" then Returned default else Raised e
  end.

(** Truth value of a number. *)
Definition truthyQ (q : Q) : bool := negb (Qeq_bool q 0%Q).
Definition truthyZ (z : Z) : bool := negb (z =? 0).

(** [x or d] where [x] is a number or [None]. *)
Definition or_ {A} (truthy : A -> bool) (x : option A) (d : A) : A :=
  match x with
  | Some v => if truthy v then v else d
  | None => d
  end.

Definition Qltb (a b : Q) : bool := negb (Qle_bool b a).

(** [max(a, b)] and [min(a, b)] return the first argument unless the
    second is strictly larger (resp. smaller). *)
Definition maxQ (a b : Q) : Q := if Qltb a b then b else a.
Definition maxZ (a b : Z) : Z := if a <? b then b else a.
Definition minZ (a b : Z) : Z := if b <? a then b else a.

(** [int(q)] truncates toward zero. *)
Definition int (q : Q) : Z := Z.quot (Qnum q) (Z.pos (Qden q)).

(** *** Float arithmetic

    The result of an arithmetic operation on floats is the exact result
    rounded to the nearest binary64 float, ties to the even mantissa; a
    result of [2 ^ 1024] or more in size is an infinity. A finite float is
    the rational it stands for. *)

Inductive float :=
| Finite (q : Q)
| Infinity (negative : bool)
| NaN.

(** [n / d] divided by [2 ^ e], as a fraction of integers. *)
Definition scale (n d e : Z) : Z * Z :=
  if 0 <=? e then (n, d * 2 ^ e) else (n * 2 ^ (- e), d).

(** The integer part of the binary logarithm of [n / d], for positive [n]
    and [d]. *)
Definition ilog2 (n d : Z) : Z :=
  let e := Z.log2 n - Z.log2 d in
  let '(N, D) := scale n d e in
  if N <? D then e - 1 else e.

(** The integer nearest to [N / D], the even one of two at equal distance. *)
Definition round_half_even (N D : Z) : Z :=
  let q := N / D in
  match 2 * (N mod D) ?= D with
  | Lt => q
  | Gt => q + 1
  | Eq => if Z.even q then q else q + 1
  end.

(** The binary64 float nearest to [q]: a mantissa [m] of 53 bits, or of
    fewer bits below [2 ^ -1022], where the spacing stays [2 ^ -1074]. *)
Definition round64 (q : Q) : float :=
  let n := Z.abs (Qnum q) in
  let d := Z.pos (Qden q) in
  if n =? 0 then Finite 0%Q
  else
    let p := Z.max (ilog2 n d - 52) (-1074) in
    let '(N, D) := scale n d p in
    let m := round_half_even N D in
    if 1024 <=? Z.log2 m + p then Infinity (Qnum q <? 0)
    else
      let r := if 0 <=? p then inject_Z (m * 2 ^ p)
               else Qred (m # Z.to_pos (2 ^ (- p))) in
      Finite (if Qnum q <? 0 then Qopp r else r).

(** [a / b] for a [b] other than zero, and [a - b], on finite floats. *)
Definition fdiv (a b : Q) : float := round64 (a / b).
Definition fsub (a b : Q) : float := round64 (a - b).

(** [a * b] for a finite [b]. *)
Definition fmul (a : float) (b : Q) : float :=
  match a with
  | Finite x => round64 (x * b)
  | Infinity negative =>
      if Qeq_bool b 0%Q then NaN else Infinity (xorb negative (Qltb b 0%Q))
  | NaN => NaN
  end.

(** [max(a, b)] for a finite [b]: [a] unless [b] is strictly larger. *)
Definition max_float (a : float) (b : Q) : float :=
  match a with
  | Finite x => Finite (maxQ x b)
  | Infinity true => Finite b
  | Infinity false => Infinity false
  | NaN => NaN
  end.

(** [int(x)] of a float raises on an infinity and on NaN. *)
Definition int_float (x : float) : outcome Z :=
  match x with
  | Finite q => Returned (int q)
  | Infinity _ =>
      Raised (Instance "OverflowError" ["ArithmeticError"]
                "cannot convert float infinity to integer")
  | NaN => Raised (Exception "ValueError" "cannot convert float NaN to integer")
  end.

Arguments round64 : simpl never.

(** [divmod(a, b)] floors, as [Z.div] and [Z.modulo] do. *)
Definition divmod (a b : Z) : Z * Z := (a / b, a mod b).

(** [f"{z}"] and [f"{z:d}"] *)
Definition str (z : Z) : string := pretty z.

(** [f"{z:02d}"]: zero-padded to width two; the sign counts in the width. *)
Definition fmt_02d (z : Z) : string :=
  if (0 <=? z) && (z <? 10) then "0" +:+ str z else str z.

(** [f"{x}"] of a value that is a [str] or [None]. *)
Definition str_opt (x : option string) : string :=
  match x with
  | Some s => s
  | None => "None"
  end.

End Py.

Import Py.

#[global] Instance outcome_bind : MBind outcome := @Py.bind.
#[global] Instance outcome_ret : MRet outcome := @Returned.

(** ** The engine: python-mpv's [MPV] object

    The properties the application reads are inputs from the engine: a read
    gives a value or raises. The commands and property writes the
    application issues are recorded in [sent], oldest first. *)

Module MPV.

Inductive command :=
| Play (url : string)
| Stop
| Seek (seconds : Z)
| SetPause (b : bool)
| SetVolume (v : Z).

Record t := Build {
  time_pos : outcome (option Q);
  duration : outcome (option Q);
  core_idle : outcome bool;
  volume : option Z;
  pause : bool;
  sent : list command
}.

(** [mpv.MPV(vo='null', ytdl=True)]: nothing loaded. *)
Definition new : t :=
  Build (Returned None) (Returned None) (Returned true) None false [].

Definition set_volume (v : Z) (m : t) : t :=
  Build (time_pos m) (duration m) (core_idle m) (Some v) (pause m)
        (sent m ++ [SetVolume v]).

Definition set_pause (b : bool) (m : t) : t :=
  Build (time_pos m) (duration m) (core_idle m) (volume m) b
        (sent m ++ [SetPause b]).

Definition send (c : command) (m : t) : t :=
  Build (time_pos m) (duration m) (core_idle m) (volume m) (pause m)
        (sent m ++ [c]).

End MPV.

(** ** [class AudioPlayer] *)

Module AudioPlayer.

Record t := Build { mpv : MPV.t }.

(** [__init__] *)
Definition init : t := Build (MPV.set_volume 80 MPV.new).

Definition play (url : string) (self : t) : t :=
  Build (MPV.send (MPV.Play url) (mpv self)).

(** [self.mpv.pause = not self.mpv.pause; return self.mpv.pause] *)
Definition pause (self : t) : bool * t :=
  let m := MPV.set_pause (negb (MPV.pause (mpv self))) (mpv self) in
  (MPV.pause m, Build m).

Definition stop (self : t) : t :=
  Build (MPV.send MPV.Stop (mpv self)).

(** [if self.mpv.core_idle: return] and then [self.mpv.seek(seconds)] *)
Definition seek (seconds : Z) (self : t) : outcome t :=
  idle ← MPV.core_idle (mpv self);
  Returned (if (idle : bool) then self
            else Build (MPV.send (MPV.Seek seconds) (mpv self))).

(** [return self.mpv.time_pos or 0] *)
Definition get_time_pos (self : t) : outcome Q :=
  v ← MPV.time_pos (mpv self); Returned (or_ truthyQ v 0%Q).

(** [return self.mpv.duration or 1] *)
Definition get_duration (self : t) : outcome Q :=
  v ← MPV.duration (mpv self); Returned (or_ truthyQ v 1%Q).

Definition change_volume (delta : Z) (self : t) : Z * t :=
  let current := or_ truthyZ (MPV.volume (mpv self)) 0 in
  let new_val := maxZ 0 (minZ 150 (current + delta)) in
  (new_val, Build (MPV.set_volume new_val (mpv self))).

End AudioPlayer.

(** ** What the external services hand back *)

(** [requests.get(url)]: a response or a raised transport error. *)
Module Response.
Record t := Build { status_code : Z; content : list byte }.
End Response.

(** One entry of a flat yt-dlp search: a key of the dict is [Some] when
    present. *)
Module Entry.
Record t := Build {
  title : option string;
  uploader : option string;
  id : option string
}.
End Entry.

(** The dict [extract_info] returns, with the two keys the source reads. *)
Module Info.
Record t := Build {
  entries : option (list Entry.t);
  url : option string
}.
End Info.

(** [ydl.extract_info(...)] returns a dict or [None], or raises. *)
Definition Extracted : Type := outcome (option Info.t).

(** [TextualImage(BytesIO(content))] of textual-image builds the image
    widget, or raises when it cannot open the bytes as an image. *)
Definition TextualImage : Type := list byte -> outcome unit.

(** ** [class SearchResultItem] *)

Module SearchResultItem.

(** What the [thumb_box] widget shows: a text or a mounted image. *)
Inductive Static :=
| Text (s : string)
| Image (data : list byte).

Record t := Build {
  title_text : string;
  uploader : string;
  video_id : option string;
  thumb_url : string;
  thumb_box : Static
}.

(** [__init__] *)
Definition init (title uploader : string) (video_id : option string)
    (thumb_url : string) : t :=
  Build title uploader video_id thumb_url (Text "Loading...").

(** Whether the box still shows the text [__init__] gave it. *)
Definition loading (self : t) : bool :=
  match thumb_box self with
  | Text s => String.eqb s "Loading..."
  | Image _ => false
  end.

Definition update_thumb_box (b : Static) (self : t) : t :=
  Build (title_text self) (uploader self) (video_id self) (thumb_url self) b.

(** The tail of [_download_thumb]: [if content: <build and mount the
    image> else: "No thumb"], where [content] is [None] or bytes. When
    [TextualImage] raises, nothing is mounted and the [except] branch puts
    "No thumb" in the box. *)
Definition show (image : TextualImage) (content : option (list byte))
    (self : t) : t :=
  match content with
  | Some (b :: bs) =>
      match image (b :: bs) with
      | Returned _ => update_thumb_box (Image (b :: bs)) self
      | Raised _ => update_thumb_box (Text "No thumb") self
      end
  | Some [] | None => update_thumb_box (Text "No thumb") self
  end.

(** [_download_thumb], run against the shared cache [app.thumb_cache].
    [requests_get] is what the network answers at the time of the call and
    [image] what [TextualImage] does; [gets] lists the URLs requested so
    far, oldest first. The result is the item, the cache and the request
    list afterwards. The lookup and the store are taken in one piece: no
    other worker runs between them. *)
Definition _download_thumb (requests_get : string -> outcome Response.t)
    (image : TextualImage)
    (self : t) (cache : gmap (option string) (list byte))
    (gets : list string)
  : t * gmap (option string) (list byte) * list string :=
  if String.eqb (thumb_url self) "" then
    (update_thumb_box (Text "No thumb") self, cache, gets)
  else
    match cache !! video_id self with
    | Some content => (show image (Some content) self, cache, gets)
    | None =>
        match requests_get (thumb_url self) with
        | Returned response =>
            if Response.status_code response =? 200 then
              let content := Response.content response in
              (show image (Some content) self,
               <[video_id self := content]> cache,
               gets ++ [thumb_url self])
            else
              (show image None self, cache, gets ++ [thumb_url self])
        | Raised e =>
            (update_thumb_box (Text "No thumb") self, cache,
             gets ++ [thumb_url self])
        end
    end.

End SearchResultItem.

(** ** Textual's [ListView], as far as the source drives it *)

Module ListView.

Record t := Build {
  children : list SearchResultItem.t;
  index : option Z
}.

Definition empty : t := Build [] None.

(** [clear()] removes the items and the highlight. *)
Definition clear (lv : t) : t := empty.

Definition append (item : SearchResultItem.t) (lv : t) : t :=
  Build (children lv ++ [item]) (index lv).

Definition set_index (i : option Z) (lv : t) : t := Build (children lv) i.

(** [children[i]] for a non-negative [i]. *)
Definition child (i : Z) (lv : t) : option SearchResultItem.t :=
  if i <? 0 then None else children lv !! Z.to_nat i.

Definition highlighted_child (lv : t) : option SearchResultItem.t :=
  match index lv with
  | Some i => child i lv
  | None => None
  end.

End ListView.

(** ** [class YTPlayerApp] *)

Module YTPlayerApp.

(** A background worker started with [run_worker] whose blocking call has
    not returned yet. *)
Inductive Worker :=
| PerformSearch (query : string)
| FetchAndPlay (video_id : option string)
| DownloadAndSet (url : string).

(** A message posted to the application and not handled yet. *)
Inductive Message :=
| Selected (item : SearchResultItem.t).

(** [self.notify(message, severity=...)] *)
Record Notification := Notify { message : string; severity : string }.

Record ProgressBar := Bar { total : Q; progress : Q }.

(** The attributes of the application and the widgets of [compose] that
    the handlers write. [workers], [messages] and [http_gets] are the
    pending workers (oldest first), the posted messages (oldest first)
    and the thumbnail URLs requested so far. *)
Record t := Build {
  player : AudioPlayer.t;
  current_video_id : option string;
  current_title : string;
  thumb_cache : gmap (option string) (list byte);
  _search_busy : option bool;
  results_list : ListView.t;
  thumbnail_container : option (list byte);
  now_playing_label : string;
  state_label : string;
  elapsed_label : string;
  progress_bar : ProgressBar;
  progress_label : string;
  remaining_label : string;
  btn_play_pause : string;
  status_line : string;
  notifications : list Notification;
  workers : list Worker;
  messages : list Message;
  http_gets : list string
}.

(** Attribute and widget writes: one field replaced, the others kept. *)

Definition set_player (v : AudioPlayer.t) (a : t) : t :=
  Build v (current_video_id a) (current_title a) (thumb_cache a)
    (_search_busy a) (results_list a) (thumbnail_container a)
    (now_playing_label a) (state_label a) (elapsed_label a)
    (progress_bar a) (progress_label a) (remaining_label a)
    (btn_play_pause a) (status_line a) (notifications a) (workers a)
    (messages a) (http_gets a).

Definition set_current_video_id (v : option string) (a : t) : t :=
  Build (player a) v (current_title a) (thumb_cache a) (_search_busy a)
    (results_list a) (thumbnail_container a) (now_playing_label a)
    (state_label a) (elapsed_label a) (progress_bar a) (progress_label a)
    (remaining_label a) (btn_play_pause a) (status_line a)
    (notifications a) (workers a) (messages a) (http_gets a).

Definition set_current_title (v : string) (a : t) : t :=
  Build (player a) (current_video_id a) v (thumb_cache a) (_search_busy a)
    (results_list a) (thumbnail_container a) (now_playing_label a)
    (state_label a) (elapsed_label a) (progress_bar a) (progress_label a)
    (remaining_label a) (btn_play_pause a) (status_line a)
    (notifications a) (workers a) (messages a) (http_gets a).

Definition set_thumb_cache (v : gmap (option string) (list byte)) (a : t) : t :=
  Build (player a) (current_video_id a) (current_title a) v
    (_search_busy a) (results_list a) (thumbnail_container a)
    (now_playing_label a) (state_label a) (elapsed_label a)
    (progress_bar a) (progress_label a) (remaining_label a)
    (btn_play_pause a) (status_line a) (notifications a) (workers a)
    (messages a) (http_gets a).

Definition set_search_busy (v : option bool) (a : t) : t :=
  Build (player a) (current_video_id a) (current_title a) (thumb_cache a)
    v (results_list a) (thumbnail_container a) (now_playing_label a)
    (state_label a) (elapsed_label a) (progress_bar a) (progress_label a)
    (remaining_label a) (btn_play_pause a) (status_line a)
    (notifications a) (workers a) (messages a) (http_gets a).

Definition set_results_list (v : ListView.t) (a : t) : t :=
  Build (player a) (current_video_id a) (current_title a) (thumb_cache a)
    (_search_busy a) v (thumbnail_container a) (now_playing_label a)
    (state_label a) (elapsed_label a) (progress_bar a) (progress_label a)
    (remaining_label a) (btn_play_pause a) (status_line a)
    (notifications a) (workers a) (messages a) (http_gets a).

Definition set_thumbnail_container (v : option (list byte)) (a : t) : t :=
  Build (player a) (current_video_id a) (current_title a) (thumb_cache a)
    (_search_busy a) (results_list a) v (now_playing_label a)
    (state_label a) (elapsed_label a) (progress_bar a) (progress_label a)
    (remaining_label a) (btn_play_pause a) (status_line a)
    (notifications a) (workers a) (messages a) (http_gets a).

Definition set_now_playing_label (v : string) (a : t) : t :=
  Build (player a) (current_video_id a) (current_title a) (thumb_cache a)
    (_search_busy a) (results_list a) (thumbnail_container a) v
    (state_label a) (elapsed_label a) (progress_bar a) (progress_label a)
    (remaining_label a) (btn_play_pause a) (status_line a)
    (notifications a) (workers a) (messages a) (http_gets a).

Definition set_state_label (v : string) (a : t) : t :=
  Build (player a) (current_video_id a) (current_title a) (thumb_cache a)
    (_search_busy a) (results_list a) (thumbnail_container a)
    (now_playing_label a) v (elapsed_label a) (progress_bar a)
    (progress_label a) (remaining_label a) (btn_play_pause a)
    (status_line a) (notifications a) (workers a) (messages a)
    (http_gets a).

Definition set_elapsed_label (v : string) (a : t) : t :=
  Build (player a) (current_video_id a) (current_title a) (thumb_cache a)
    (_search_busy a) (results_list a) (thumbnail_container a)
    (now_playing_label a) (state_label a) v (progress_bar a)
    (progress_label a) (remaining_label a) (btn_play_pause a)
    (status_line a) (notifications a) (workers a) (messages a)
    (http_gets a).

Definition set_progress_bar (v : ProgressBar) (a : t) : t :=
  Build (player a) (current_video_id a) (current_title a) (thumb_cache a)
    (_search_busy a) (results_list a) (thumbnail_container a)
    (now_playing_label a) (state_label a) (elapsed_label a) v
    (progress_label a) (remaining_label a) (btn_play_pause a)
    (status_line a) (notifications a) (workers a) (messages a)
    (http_gets a).

Definition set_progress_label (v : string) (a : t) : t :=
  Build (player a) (current_video_id a) (current_title a) (thumb_cache a)
    (_search_busy a) (results_list a) (thumbnail_container a)
    (now_playing_label a) (state_label a) (elapsed_label a)
    (progress_bar a) v (remaining_label a) (btn_play_pause a)
    (status_line a) (notifications a) (workers a) (messages a)
    (http_gets a).

Definition set_remaining_label (v : string) (a : t) : t :=
  Build (player a) (current_video_id a) (current_title a) (thumb_cache a)
    (_search_busy a) (results_list a) (thumbnail_container a)
    (now_playing_label a) (state_label a) (elapsed_label a)
    (progress_bar a) (progress_label a) v (btn_play_pause a)
    (status_line a) (notifications a) (workers a) (messages a)
    (http_gets a).

Definition set_btn_play_pause (v : string) (a : t) : t :=
  Build (player a) (current_video_id a) (current_title a) (thumb_cache a)
    (_search_busy a) (results_list a) (thumbnail_container a)
    (now_playing_label a) (state_label a) (elapsed_label a)
    (progress_bar a) (progress_label a) (remaining_label a) v
    (status_line a) (notifications a) (workers a) (messages a)
    (http_gets a).

Definition set_status_line (v : string) (a : t) : t :=
  Build (player a) (current_video_id a) (current_title a) (thumb_cache a)
    (_search_busy a) (results_list a) (thumbnail_container a)
    (now_playing_label a) (state_label a) (elapsed_label a)
    (progress_bar a) (progress_label a) (remaining_label a)
    (btn_play_pause a) v (notifications a) (workers a) (messages a)
    (http_gets a).

Definition set_notifications (v : list Notification) (a : t) : t :=
  Build (player a) (current_video_id a) (current_title a) (thumb_cache a)
    (_search_busy a) (results_list a) (thumbnail_container a)
    (now_playing_label a) (state_label a) (elapsed_label a)
    (progress_bar a) (progress_label a) (remaining_label a)
    (btn_play_pause a) (status_line a) v (workers a) (messages a)
    (http_gets a).

Definition set_workers (v : list Worker) (a : t) : t :=
  Build (player a) (current_video_id a) (current_title a) (thumb_cache a)
    (_search_busy a) (results_list a) (thumbnail_container a)
    (now_playing_label a) (state_label a) (elapsed_label a)
    (progress_bar a) (progress_label a) (remaining_label a)
    (btn_play_pause a) (status_line a) (notifications a) v (messages a)
    (http_gets a).

Definition set_messages (v : list Message) (a : t) : t :=
  Build (player a) (current_video_id a) (current_title a) (thumb_cache a)
    (_search_busy a) (results_list a) (thumbnail_container a)
    (now_playing_label a) (state_label a) (elapsed_label a)
    (progress_bar a) (progress_label a) (remaining_label a)
    (btn_play_pause a) (status_line a) (notifications a) (workers a) v
    (http_gets a).

Definition set_http_gets (v : list string) (a : t) : t :=
  Build (player a) (current_video_id a) (current_title a) (thumb_cache a)
    (_search_busy a) (results_list a) (thumbnail_container a)
    (now_playing_label a) (state_label a) (elapsed_label a)
    (progress_bar a) (progress_label a) (remaining_label a)
    (btn_play_pause a) (status_line a) (notifications a) (workers a)
    (messages a) v.

(** The state after [compose]: the class attributes and the initial
    widget texts. [_search_busy] is not an attribute yet. *)
Definition init : t :=
  Build AudioPlayer.init (Some "") "No Media Playing" ∅ None
    ListView.empty None "Not Playing" "Stopped" "00:00"
    (Bar 100%Q 0%Q) "0%" "-00:00" "⏯" "" [] [] [] [].

Definition notify (msg : string) (sev : string) (a : t) : t :=
  set_notifications (notifications a ++ [Notify msg sev]) a.

(** [run_worker(work, exclusive=...)] on the application. An exclusive
    worker cancels the pending workers of the application first. A
    cancelled worker stops at its [await]: neither the statements after it
    nor an [except Exception] branch run. (The [finally] of a cancelled
    search would run, but no search is pending when one is started, see
    [reachable_single_flight].) *)
Definition run_worker (w : Worker) (exclusive : bool) (a : t) : t :=
  set_workers ((if exclusive then [] else workers a) ++ [w]) a.

Definition post_message (m : Message) (a : t) : t :=
  set_messages (messages a ++ [m]) a.

(** [ListView.action_select_cursor]: posts [Selected] for the
    highlighted item, if there is one. *)
Definition action_select_cursor (a : t) : t :=
  match ListView.highlighted_child (results_list a) with
  | Some item => post_message (Selected item) a
  | None => a
  end.

(** *** Handlers that can raise

    A handler runs on the application state and either returns or raises;
    what it wrote before raising stays written. *)

Definition M (A : Type) : Type := t -> outcome A * t.

Definition ret {A} (x : A) : M A := fun s => (Returned x, s).

Definition bind {A B} (k : A -> M B) (m : M A) : M B :=
  fun s =>
    match m s with
    | (Returned x, s') => k x s'
    | (Raised e, s') => (Raised e, s')
    end.

(** Evaluate something that may raise against the current state. *)
Definition read {A} (f : t -> outcome A) : M A := fun s => (f s, s).

(** A write to an attribute or a widget. *)
Definition write (f : t -> t) : M unit := fun s => (Returned (), f s).

(** [try: body except Exception as e: handler(e)] *)
Definition try_except {A} (body : M A) (handler : exn -> M A) : M A :=
  fun s =>
    match body s with
    | (Returned x, s') => (Returned x, s')
    | (Raised e, s') => handler e s'
    end.

(** [try: body finally: final] *)
Definition try_finally {A} (body : M A) (final : M unit) : M A :=
  fun s =>
    match body s with
    | (r, s') =>
        match final s' with
        | (Returned _, s'') => (r, s'')
        | (Raised e, s'') => (Raised e, s'')
        end
    end.

(** The state a handler leaves behind. *)
Definition exec {A} (m : M A) (s : t) : t := snd (m s).

(** Whether a handler raised. *)
Definition raised {A} (m : M A) (s : t) : option exn :=
  match fst (m s) with
  | Returned _ => None
  | Raised e => Some e
  end.

#[global] Instance app_bind : MBind M := @bind.
#[global] Instance app_ret : MRet M := @ret.

(** *** Search *)

Definition on_input_submitted (query : string) (self : t) : t :=
  if String.eqb query "" then self
  else if default false (_search_busy self) then
    notify "Search already in progress." "warning" self
  else
    let self := set_search_busy (Some true) self in
    let self := set_results_list (ListView.clear (results_list self)) self in
    let self :=
      set_status_line ("Searching for '" +:+ query +:+ "'...") self in
    run_worker (PerformSearch query) true self.

(** The body of the [for entry in info['entries']] loop. *)
Definition append_entry (self : t) (entry : Entry.t) : t :=
  let title := default "Unknown" (Entry.title entry) in
  let uploader := default "Unknown" (Entry.uploader entry) in
  let vid_id := Entry.id entry in
  let thumb :=
    "https://i.ytimg.com/vi/" +:+ str_opt vid_id +:+ "/hqdefault.jpg" in
  set_results_list
    (ListView.append (SearchResultItem.init title uploader vid_id thumb)
                     (results_list self))
    self.

(** [info.get('entries')] *)
Definition get_entries (info : option Info.t)
  : outcome (option (list Entry.t)) :=
  match info with
  | Some i => Returned (Info.entries i)
  | None =>
      Raised (Exception "AttributeError"
                "'NoneType' object has no attribute 'get'")
  end.

(** [perform_search] from the point where [extract_info] has answered
    with [r]. *)
Definition perform_search (r : Extracted) : M unit :=
  try_finally
    (try_except
       (info ← read (fun _ => r);
        entries ← read (fun _ => get_entries info);
        match entries with
        | Some (e :: es) =>
            write (fun self => foldl append_entry self (e :: es));;
            write (notify "Search completed." "information");;
            write (set_status_line "")
        | Some [] | None =>
            write (notify "No results found." "warning");;
            write (set_status_line "No results found.")
        end)
       (fun e =>
          write (notify ("Search failed: " +:+ exn_msg e) "error");;
          write (set_status_line ("Search failed: " +:+ exn_msg e))))
    (write (set_search_busy (Some false))).

(** *** Playback *)

(** [ThumbnailWidget.update_image] *)
Definition update_image (url : string) (a : t) : t :=
  run_worker (DownloadAndSet url) false a.

Definition play_video (item : SearchResultItem.t) (self : t) : t :=
  let self := set_current_title (SearchResultItem.title_text item) self in
  let self := set_current_video_id (SearchResultItem.video_id item) self in
  let self :=
    set_now_playing_label
      ("[b]" +:+ SearchResultItem.title_text item +:+ "[/b]") self in
  let self := update_image (SearchResultItem.thumb_url item) self in
  let self := set_state_label "Loading" self in
  let self := set_status_line "" self in
  run_worker (FetchAndPlay (SearchResultItem.video_id item)) false self.

Definition on_list_view_selected (m : Message) (self : t) : t :=
  match m with
  | Selected item => play_video item self
  end.

(** [info['url']] *)
Definition get_url (info : option Info.t) : outcome string :=
  match info with
  | Some i =>
      match Info.url i with
      | Some u => Returned u
      | None => Raised (Instance "KeyError" ["LookupError"] "'url'")
      end
  | None =>
      Raised (Exception "TypeError" "'NoneType' object is not subscriptable")
  end.

(** [fetch_and_play] from the point where [extract_info] has answered
    with [r]. The [video_id] argument only went into the request. *)
Definition fetch_and_play (video_id : option string) (r : Extracted)
  : M unit :=
  try_except
    (info ← read (fun _ => r);
     play_url ← read (fun _ => get_url info);
     write (fun self =>
              set_player (AudioPlayer.play play_url (player self)) self);;
     write (set_state_label "Playing");;
     write (set_status_line ""))
    (fun e =>
       write (notify ("Error fetching stream: " +:+ exn_msg e) "error");;
       write (set_state_label "Error");;
       write (set_status_line (exn_msg e))).

(** [ThumbnailWidget._download_and_set] from the point where
    [requests.get] has answered with [r]; [image] is what [TextualImage]
    does. On a 200 answer the picture shown so far is removed before the
    new widget is built, so the container stays empty when [TextualImage]
    raises. The [except] branch only logs. *)
Definition _download_and_set (url : string) (r : outcome Response.t)
    (image : TextualImage) : M unit :=
  if String.eqb url "" then mret ()
  else
    try_except
      (write (fun self => set_http_gets (http_gets self ++ [url]) self);;
       response ← read (fun _ => r);
       if Response.status_code response =? 200 then
         write (set_thumbnail_container None);;
         read (fun _ => image (Response.content response));;
         write (set_thumbnail_container (Some (Response.content response)))
       else mret ())
      (fun e => mret ()).

(** *** Controls *)

Definition toggle_play_pause (self : t) : t :=
  let '(paused, p) := AudioPlayer.pause (player self) in
  let self := set_player p self in
  let self := set_btn_play_pause (if paused then "▶" else "⏸") self in
  set_state_label (if paused then "Paused" else "Playing") self.

Definition action_seek_forward : M unit :=
  p ← read (fun self => AudioPlayer.seek 10 (player self));
  write (set_player p);;
  write (notify "Seek +10s" "information").

Definition action_seek_backward : M unit :=
  p ← read (fun self => AudioPlayer.seek (-10) (player self));
  write (set_player p);;
  write (notify "Seek -10s" "information").

Definition action_volume_up (self : t) : t :=
  let '(vol, p) := AudioPlayer.change_volume 5 (player self) in
  notify ("Volume " +:+ str vol) "information" (set_player p self).

Definition action_volume_down (self : t) : t :=
  let '(vol, p) := AudioPlayer.change_volume (-5) (player self) in
  notify ("Volume " +:+ str vol) "information" (set_player p self).

Definition stop_playback (self : t) : t :=
  let self := set_player (AudioPlayer.stop (player self)) self in
  let self :=
    set_progress_bar (Bar (total (progress_bar self)) 0%Q) self in
  let self := set_progress_label "0%" self in
  let self := set_elapsed_label "00:00" self in
  let self := set_remaining_label "-00:00" self in
  let self := set_now_playing_label "Stopped" self in
  set_state_label "Stopped" self.

Definition play_selected (self : t) : t :=
  let list_view := results_list self in
  let list_view :=
    match ListView.index list_view, ListView.children list_view with
    | None, _ :: _ => ListView.set_index (Some 0) list_view
    | _, _ => list_view
    end in
  let self := set_results_list list_view self in
  match ListView.index list_view with
  | Some _ => action_select_cursor self
  | None => self
  end.

(** [list_view.children[i]]: [IndexError] out of range. *)
Definition child_at (i : Z) (self : t) : outcome SearchResultItem.t :=
  match ListView.child i (results_list self) with
  | Some item => Returned item
  | None =>
      Raised (Instance "IndexError" ["LookupError"] "list index out of range")
  end.

Definition shift_selection (delta : Z) (autoplay : bool) : M unit :=
  list_view ← read (fun self => Returned (results_list self));
  match ListView.children list_view with
  | [] => mret ()
  | _ :: _ =>
      let idx := or_ truthyZ (ListView.index list_view) 0 in
      let new_idx :=
        maxZ 0 (minZ (Z.of_nat (length (ListView.children list_view)) - 1)
                     (idx + delta)) in
      write (set_results_list (ListView.set_index (Some new_idx) list_view));;
      write action_select_cursor;;
      if autoplay then
        item ← read (child_at new_idx);
        write (play_video item)
      else mret ()
  end.

Definition next_item : M unit := shift_selection 1 true.

Definition prev_item : M unit := shift_selection (-1) true.

(** *** Progress *)

(** [_fmt_time] on a number of seconds. *)
Definition _fmt_time (seconds : Q) : string :=
  if Qltb seconds 0%Q then "00:00"
  else
    let secs := int seconds in
    let '(m, s) := divmod secs 60 in
    let '(h, m) := divmod m 60 in
    if truthyZ h then str h +:+ ":" +:+ fmt_02d m +:+ ":" +:+ fmt_02d s
    else fmt_02d m +:+ ":" +:+ fmt_02d s.

(** [_fmt_time] on a float that need not be finite: an infinity below zero
    is caught by [seconds < 0]; on the other one and on NaN [int] raises. *)
Definition _fmt_time_float (seconds : float) : outcome string :=
  match seconds with
  | Finite q => Returned (_fmt_time q)
  | Infinity true => Returned "00:00"
  | Infinity false | NaN =>
      secs ← int_float seconds; Returned (_fmt_time (inject_Z secs))
  end.

Definition update_progress : M unit :=
  try_except
    (idle ← read (fun self =>
                    getattr_default
                      (MPV.core_idle (AudioPlayer.mpv (player self))) false);
     if (idle : bool) then mret ()
     else
       curr ← read (fun self => AudioPlayer.get_time_pos (player self));
       total ← read (fun self => AudioPlayer.get_duration (player self));
       let total :=
         if negb (truthyQ total) || Qle_bool total 0%Q then maxQ curr 1%Q
         else total in
       if Qltb 0%Q total then
         percent ← read (fun _ => int_float (fmul (fdiv curr total) 100%Q));
         let remaining := max_float (fsub total curr) 0%Q in
         write (set_progress_bar (Bar total curr));;
         write (set_progress_label (str percent +:+ "%"));;
         write (set_elapsed_label (_fmt_time curr));;
         text ← read (fun _ => _fmt_time_float remaining);
         write (set_remaining_label ("-" +:+ text))
       else mret ())
    (fun _ => mret ()).

End YTPlayerApp.

(** ** The application as a transition system

    Everything runs on one event loop: a handler runs to completion, or up
    to its [await], before the next event is taken. An event is a user
    action, the delivery of a posted message, the timer, or the return of a
    blocking call inside a worker, which resumes that worker. *)

Module Loop.
Import YTPlayerApp.

Inductive Event :=
| InputSubmitted (value : string)
| Key (key : string)
| ButtonPressed (btn_id : string)
| Deliver
| Interval
| Extract (i : nat) (r : Extracted)
| Http (i : nat) (r : outcome Response.t) (image : TextualImage)
| Thumb (i : nat) (r : outcome Response.t) (image : TextualImage)
| Engine (time_pos duration : outcome (option Q)) (core_idle : outcome bool).

(** [BINDINGS] (the second table, which replaces the first), without the
    quit key. *)
Definition action (key : string) : M unit :=
  if String.eqb key "space" then write toggle_play_pause
  else if String.eqb key "left" then action_seek_backward
  else if String.eqb key "right" then action_seek_forward
  else if String.eqb key "enter" then write play_selected
  else if String.eqb key "n" then next_item
  else if String.eqb key "p" then prev_item
  else if String.eqb key "s" then write stop_playback
  else if String.eqb key "0" then write action_volume_up
  else if String.eqb key "9" then write action_volume_down
  else mret ().

Definition on_button_pressed (btn_id : string) : M unit :=
  if String.eqb btn_id "btn_play_pause" then write toggle_play_pause
  else if String.eqb btn_id "btn_stop" then write stop_playback
  else if String.eqb btn_id "btn_next" then next_item
  else mret ().

(** The [i]-th pending worker resumes with the answer of [extract_info]. *)
Definition resume_extract (i : nat) (r : Extracted) : M unit :=
  w ← read (fun self => Returned (workers self !! i));
  match w with
  | Some (PerformSearch query) =>
      write (fun self => set_workers (delete i (workers self)) self);;
      perform_search r
  | Some (FetchAndPlay video_id) =>
      write (fun self => set_workers (delete i (workers self)) self);;
      fetch_and_play video_id r
  | Some (DownloadAndSet _) | None => mret ()
  end.

(** The [i]-th pending worker resumes with the answer of [requests.get]. *)
Definition resume_http (i : nat) (r : outcome Response.t)
    (image : TextualImage) : M unit :=
  w ← read (fun self => Returned (workers self !! i));
  match w with
  | Some (DownloadAndSet url) =>
      write (fun self => set_workers (delete i (workers self)) self);;
      _download_and_set url r image
  | _ => mret ()
  end.

(** The worker of the [i]-th listed item runs [_download_thumb]; an item
    still showing its initial text is one whose worker has not run. *)
Definition resume_thumb (i : nat) (r : outcome Response.t)
    (image : TextualImage) (self : t) : t :=
  let list_view := results_list self in
  match ListView.children list_view !! i with
  | Some item =>
      if SearchResultItem.loading item then
        let '(item', cache, gets) :=
          SearchResultItem._download_thumb (fun _ => r) image item
            (thumb_cache self) (http_gets self) in
        let self := set_thumb_cache cache self in
        let self := set_http_gets gets self in
        set_results_list
          (ListView.Build (<[i := item']> (ListView.children list_view))
                          (ListView.index list_view))
          self
      else self
  | None => self
  end.

Definition deliver : M unit :=
  ms ← read (fun self => Returned (messages self));
  match ms with
  | m :: rest =>
      write (set_messages rest);;
      write (on_list_view_selected m)
  | [] => mret ()
  end.

Definition set_engine (tp d : outcome (option Q)) (ci : outcome bool)
    (self : t) : t :=
  let m := AudioPlayer.mpv (player self) in
  set_player
    (AudioPlayer.Build
       (MPV.Build tp d ci (MPV.volume m) (MPV.pause m) (MPV.sent m)))
    self.

Definition handle (ev : Event) : M unit :=
  match ev with
  | InputSubmitted value => write (on_input_submitted value)
  | Key key => action key
  | ButtonPressed btn_id => on_button_pressed btn_id
  | Deliver => deliver
  | Interval => update_progress
  | Extract i r => resume_extract i r
  | Http i r image => resume_http i r image
  | Thumb i r image => write (resume_thumb i r image)
  | Engine tp d ci => write (set_engine tp d ci)
  end.

(** The event loop over a list of events: a handler that raises ends it. *)
Fixpoint run (evs : list Event) : M unit :=
  match evs with
  | [] => mret ()
  | ev :: evs' => handle ev;; run evs'
  end.

End Loop.

(** * Vocabulary of the properties *)

Import YTPlayerApp.

(** The clamp of the specification. *)
Definition clamp (lo hi x : Z) : Z := Z.max lo (Z.min hi x).

(** A handler keeps [I] when every state it can leave behind satisfies [I],
    whether it returns or raises. *)
Definition keeps {A} (I : t -> Prop) (m : M A) : Prop :=
  forall s, I s -> I (exec m s).

(** A handler is safe when it returns in every state. *)
Definition safe {A} (m : M A) : Prop :=
  forall s, raised m s = None.

(** *** Searches in flight *)

Definition pending_query (w : Worker) : option string :=
  match w with
  | PerformSearch query => Some query
  | _ => None
  end.

(** The queries of the search workers that have not finished. *)
Definition in_flight (self : t) : list string :=
  omap pending_query (workers self).

(** The busy flag counts the searches in flight: one when set, none when
    clear or not yet an attribute. *)
Definition single_flight (self : t) : Prop :=
  length (in_flight self) =
    if default false (_search_busy self) then 1%nat else 0%nat.

(** The workers and the busy flag are these. *)
Definition search_frame (ws : list Worker) (b : option bool) (s : t) : Prop :=
  workers s = ws /\ _search_busy s = b.

(** The three ways a search ends. *)
Inductive Ending :=
| Found (e : Entry.t) (es : list Entry.t)
| NoResults
| Failure (msg : string).

Definition ending (r : Extracted) : Ending :=
  match r with
  | Returned (Some info) =>
      match Info.entries info with
      | Some (e :: es) => Found e es
      | Some [] | None => NoResults
      end
  | Returned None => Failure "'NoneType' object has no attribute 'get'"
  | Raised e => Failure (exn_msg e)
  end.

(** *** The cursor *)

Inductive Move := Next | Prev.

Definition move (m : Move) : M unit :=
  match m with
  | Next => next_item
  | Prev => prev_item
  end.

(** A sequence of next/previous calls, first call first. *)
Fixpoint moves (ms : list Move) : M unit :=
  match ms with
  | [] => mret ()
  | m :: ms' => move m;; moves ms'
  end.

Definition delta_of (m : Move) : Z :=
  match m with
  | Next => 1
  | Prev => -1
  end.

(** *** The session *)

Inductive SessionState := Idle | Loading | Playing | Paused | Stopped | Errored.

(** The source keeps no session state of its own: the text it puts in the
    state label is the state. Before the first selection, while
    [current_video_id] is still the empty string of the class attribute, the
    label "Stopped" of [compose] is the idle state. *)
Definition session_state (self : t) : option SessionState :=
  let label := state_label self in
  if String.eqb label "Loading" then Some Loading
  else if String.eqb label "Playing" then Some Playing
  else if String.eqb label "Paused" then Some Paused
  else if String.eqb label "Error" then Some Errored
  else if String.eqb label "Stopped" then
    match current_video_id self with
    | Some "" => Some Idle
    | _ => Some Stopped
    end
  else None.

(** What the application has sent to the engine so far. *)
Definition engine_log (self : t) : list MPV.command :=
  MPV.sent (AudioPlayer.mpv (player self)).

Definition item_a : SearchResultItem.t :=
  SearchResultItem.init "Track A" "Uploader" (Some "idA")
    "https://i.ytimg.com/vi/idA/hqdefault.jpg".

Definition item_b : SearchResultItem.t :=
  SearchResultItem.init "Track B" "Uploader" (Some "idB")
    "https://i.ytimg.com/vi/idB/hqdefault.jpg".

(** [extract_info] answers with a stream URL. *)
Definition resolved (u : string) : Extracted :=
  Returned (Some (Info.Build None (Some u))).

(** The stream URL in an answer of [extract_info], or the exception the
    [try] block of [fetch_and_play] raises on it. *)
Definition stream_url (r : Extracted) : outcome string :=
  info ← r; get_url info.

(** *** The progress tick *)

(** The engine is active and reports this position and duration. *)
Definition engine_reports (position duration : option Q) (self : t) : t :=
  Loop.set_engine (Returned position) (Returned duration) (Returned false) self.

(** The engine as it is, but for what the read of [core_idle] gives. *)
Definition with_core_idle (ci : outcome bool) (self : t) : t :=
  let m := AudioPlayer.mpv (player self) in
  Loop.set_engine (MPV.time_pos m) (MPV.duration m) ci self.

(** Whether one of the reads of the tick raises: the read of [core_idle]
    through [getattr] (which answers an [AttributeError] with [False]),
    then, when the engine is not idle, the position and the duration. *)
Definition tick_read_fails (self : t) : bool :=
  let m := AudioPlayer.mpv (player self) in
  match getattr_default (MPV.core_idle m) false with
  | Raised _ => true
  | Returned true => false
  | Returned false =>
      match MPV.time_pos m, MPV.duration m with
      | Returned _, Returned _ => false
      | _, _ => true
      end
  end.

(** *** Thumbnails *)

(** What a fetch for an item brings back: the bytes of a 200 response, or
    nothing when the URL is empty, the request raises or the status is not
    200. *)
Definition fetched (requests_get : string -> outcome Response.t)
    (item : SearchResultItem.t) : option (list byte) :=
  if String.eqb (SearchResultItem.thumb_url item) "" then None
  else
    match requests_get (SearchResultItem.thumb_url item) with
    | Returned response =>
        if Response.status_code response =? 200
        then Some (Response.content response) else None
    | Raised _ => None
    end.

(** A picture: the GIF file of one transparent pixel. *)
Definition gif : list byte :=
  [x47; x49; x46; x38; x39; x61; x01; x00; x01; x00; x80; x00; x00; x00;
   x00; x00; xff; xff; xff; x21; xf9; x04; x01; x00; x00; x00; x00; x2c;
   x00; x00; x00; x00; x01; x00; x01; x00; x00; x02; x01; x44; x00; x3b].

(** The four bytes a JPEG file starts with, which are no picture. *)
Definition jpeg : list byte := [xff; xd8; xff; xe0].

Definition serve_gif (url : string) : outcome Response.t :=
  Returned (Response.Build 200 gif).

Definition serve_jpeg (url : string) : outcome Response.t :=
  Returned (Response.Build 200 jpeg).

(** A [TextualImage] that opens [gif] and raises on any other content. *)
Definition opens_gif : TextualImage :=
  fun content =>
    if bool_decide (Byte.to_N <$> content = Byte.to_N <$> gif)
    then Returned ()
    else Raised (Instance "UnidentifiedImageError" ["OSError"]
                   "cannot identify image file").


(** *** Search results *)

(** The item the loop of [perform_search] builds from an entry. *)
Definition item_of (entry : Entry.t) : SearchResultItem.t :=
  SearchResultItem.init
    (default "Unknown" (Entry.title entry))
    (default "Unknown" (Entry.uploader entry))
    (Entry.id entry)
    ("https://i.ytimg.com/vi/" +:+ str_opt (Entry.id entry) +:+ "/hqdefault.jpg").

(** *** Invariants of the event loop *)

(** The engine has a volume, and it is within [0, 150]. *)
Definition volume_in_range (self : t) : Prop :=
  exists v, MPV.volume (AudioPlayer.mpv (player self)) = Some v
            /\ 0 <= v <= 150.

(** The highlighted index, when there is one, names an item of the list. *)
Definition cursor_in_bounds (self : t) : Prop :=
  match ListView.index (results_list self) with
  | Some i => 0 <= i < Z.of_nat (length (ListView.children (results_list self)))
  | None => True
  end.

(** The state label shows one of the five texts the source writes. *)
Definition known_label (self : t) : Prop :=
  state_label self ∈ ["Stopped"; "Loading"; "Playing"; "Paused"; "Error"].

(** *** The duration of a tick *)

(** The duration an active engine's tick computes with. *)
Definition tick_total (position duration : option Q) : Q :=
  match duration with
  | None => 1%Q
  | Some d =>
      if Qeq_bool d 0%Q then 1%Q
      else if Qle_bool d 0%Q then maxQ (or_ truthyQ position 0%Q) 1%Q
      else d
  end.

(** The engine's volume is this. *)
Definition volume_is (o : option Z) (s : t) : Prop :=
  MPV.volume (AudioPlayer.mpv (player s)) = o.

(** * Properties *)

(** ** Volume *)

Lemma maxZ_minZ_clamp (lo hi x : Z) : maxZ lo (minZ hi x) = clamp lo hi x.
Proof.
  unfold maxZ, minZ, clamp.
  destruct (Z.ltb_spec x hi), (Z.ltb_spec lo x); try lia;
    destruct (Z.ltb_spec lo hi); lia.
Qed.

Lemma or_truthyZ_default (x : option Z) : or_ truthyZ x 0 = default 0 x.
Proof.
  destruct x as [v|]; simpl; [|done].
  unfold truthyZ. destruct (Z.eqb_spec v 0); simpl; congruence.
Qed.

Lemma change_volume_eq (delta : Z) (self : AudioPlayer.t) :
  AudioPlayer.change_volume delta self =
    (let n := clamp 0 150 (default 0 (MPV.volume (AudioPlayer.mpv self)) + delta)
     in (n, AudioPlayer.Build (MPV.set_volume n (AudioPlayer.mpv self)))).
Proof.
  unfold AudioPlayer.change_volume.
  by rewrite or_truthyZ_default, maxZ_minZ_clamp.
Qed.

(** C8. For every current volume [v] (read as 0 when the engine has none)
    and every integer [delta], [change_volume] returns [clamp 0 150 (v +
    delta)], writes that value to the engine's volume with one property
    write, and touches nothing else of the engine. It takes the player
    alone, and the two volume actions of the application give the same
    level in every application state, leaving the state label as it is. *)
Theorem change_volume_clamps (delta : Z) (self : AudioPlayer.t) (app : t) :
  let m := AudioPlayer.mpv self in
  let v := default 0 (MPV.volume m) in
  let new_val := (AudioPlayer.change_volume delta self).1 in
  let m' := AudioPlayer.mpv (AudioPlayer.change_volume delta self).2 in
  new_val = clamp 0 150 (v + delta)
  /\ 0 <= new_val <= 150
  /\ MPV.volume m' = Some new_val
  /\ MPV.sent m' = MPV.sent m ++ [MPV.SetVolume new_val]
  /\ MPV.pause m' = MPV.pause m
  /\ (let w := default 0 (MPV.volume (AudioPlayer.mpv (player app))) in
      MPV.volume (AudioPlayer.mpv (player (action_volume_up app)))
        = Some (clamp 0 150 (w + 5))
      /\ MPV.volume (AudioPlayer.mpv (player (action_volume_down app)))
        = Some (clamp 0 150 (w - 5))
      /\ state_label (action_volume_up app) = state_label app
      /\ state_label (action_volume_down app) = state_label app).
Proof.
  unfold action_volume_up, action_volume_down.
  rewrite !change_volume_eq. simpl.
  repeat split; try done; unfold clamp; lia.
Qed.

(** ** Submitting a query *)

(** C10. Submitting the empty query returns the application state as it
    was: the busy flag, the result list, the workers, the notifications and
    the status line are all the same, also as a turn of the event loop,
    which goes on. *)
Theorem empty_query_noop (self : t) :
  on_input_submitted "" self = self
  /\ exec (Loop.handle (Loop.InputSubmitted "")) self = self
  /\ raised (Loop.handle (Loop.InputSubmitted "")) self = None.
Proof. done. Qed.

(** ** Reasoning about handlers *)

Section HandlerRules.
Context {A B : Type}.
Implicit Types (I : t -> Prop).

Lemma keeps_ret I (x : A) : keeps I (mret x).
Proof. by intros s Hs. Qed.

Lemma keeps_read I (f : t -> outcome A) : keeps I (read f).
Proof. by intros s Hs. Qed.

Lemma keeps_bind I (m : M A) (k : A -> M B) :
  keeps I m -> (forall x, keeps I (k x)) -> keeps I (m ≫= k).
Proof.
  intros Hm Hk s Hs. specialize (Hm s Hs).
  unfold exec, mbind, app_bind, bind in *.
  destruct (m s) as [[x|e] s']; simpl in *; [by apply Hk | done].
Qed.

Lemma keeps_try_except I (m : M A) (h : exn -> M A) :
  keeps I m -> (forall e, keeps I (h e)) -> keeps I (try_except m h).
Proof.
  intros Hm Hh s Hs. specialize (Hm s Hs).
  unfold exec, try_except in *.
  destruct (m s) as [[x|e] s']; simpl in *; [done | by apply Hh].
Qed.

Lemma keeps_try_finally I (m : M A) (f : M unit) :
  keeps I m -> keeps I f -> keeps I (try_finally m f).
Proof.
  intros Hm Hf s Hs. specialize (Hm s Hs).
  unfold exec, try_finally in *.
  destruct (m s) as [r s']; simpl in *.
  specialize (Hf s' Hm). unfold exec in Hf.
  by destruct (f s') as [[[]|e] s''].
Qed.

Lemma safe_ret (x : A) : safe (mret x).
Proof. done. Qed.

Lemma safe_bind (m : M A) (k : A -> M B) :
  safe m -> (forall x, safe (k x)) -> safe (m ≫= k).
Proof.
  intros Hm Hk s. specialize (Hm s).
  unfold raised, mbind, app_bind, bind in *.
  destruct (m s) as [[x|e] s']; simpl in *; [apply Hk | done].
Qed.

Lemma safe_try_except (m : M A) (h : exn -> M A) :
  (forall e, safe (h e)) -> safe (try_except m h).
Proof.
  intros Hh s. unfold raised, try_except.
  destruct (m s) as [[x|e] s']; simpl; [done | apply Hh].
Qed.

Lemma safe_try_finally (m : M A) (f : M unit) :
  safe m -> safe f -> safe (try_finally m f).
Proof.
  intros Hm Hf s. specialize (Hm s).
  unfold raised, try_finally in *.
  destruct (m s) as [r s']; simpl in *.
  specialize (Hf s'). unfold raised in Hf.
  destruct (f s') as [[[]|e] s'']; simpl in *; done.
Qed.

(** The state after a safe handler followed by another. *)
Lemma exec_bind_safe (m : M A) (k : A -> M B) (s : t) :
  safe m -> exists x, exec (m ≫= k) s = exec (k x) (exec m s)
                      /\ raised (m ≫= k) s = raised (k x) (exec m s).
Proof.
  intros Hm. specialize (Hm s).
  unfold exec, raised, mbind, app_bind, bind in *.
  destruct (m s) as [[x|e] s']; simpl in *; [by exists x | done].
Qed.

End HandlerRules.

Lemma keeps_write (I : t -> Prop) (f : t -> t) :
  (forall s, I s -> I (f s)) -> keeps I (write f).
Proof. intros Hf s Hs. by apply Hf. Qed.

Lemma safe_write (f : t -> t) : safe (write f).
Proof. done. Qed.

Lemma safe_read_returned {A} (f : t -> A) : safe (read (fun s => Returned (f s))).
Proof. done. Qed.

Lemma keeps_run (I : t -> Prop) (evs : list Loop.Event) :
  (forall ev, keeps I (Loop.handle ev)) -> keeps I (Loop.run evs).
Proof.
  intros H. induction evs as [|ev evs IH]; simpl.
  - apply keeps_ret.
  - apply keeps_bind; [apply H | done].
Qed.

Create HintDb handlers.

#[local] Hint Resolve keeps_ret keeps_read keeps_bind keeps_try_except
  keeps_try_finally keeps_write : handlers.
#[local] Hint Resolve safe_ret safe_bind safe_try_except safe_try_finally
  safe_write safe_read_returned : handlers.

(** ** Handlers that never raise *)

Lemma update_progress_safe : safe update_progress.
Proof. apply safe_try_except. auto with handlers. Qed.

Lemma perform_search_safe (r : Extracted) : safe (perform_search r).
Proof. apply safe_try_finally; [apply safe_try_except|]; auto with handlers. Qed.

Lemma fetch_and_play_safe (video_id : option string) (r : Extracted) :
  safe (fetch_and_play video_id r).
Proof. apply safe_try_except. auto with handlers. Qed.

Lemma resume_extract_safe (i : nat) (r : Extracted) :
  safe (Loop.resume_extract i r).
Proof.
  unfold Loop.resume_extract. apply safe_bind; [done|].
  intros [[query|video_id|url]|]; auto with handlers.
  - apply safe_bind; [done|]. intros _. apply perform_search_safe.
  - apply safe_bind; [done|]. intros _. apply fetch_and_play_safe.
Qed.

(** What [shift_selection] does on a non-empty list: the new index is the
    clamp of the shifted one, it names an item, [Selected] is posted for
    that item, and with [autoplay] the item is played. *)
Lemma shift_selection_nonempty (delta : Z) (autoplay : bool) (s : t)
    (c : SearchResultItem.t) (cs : list SearchResultItem.t) :
  ListView.children (results_list s) = c :: cs ->
  let n := Z.of_nat (length (c :: cs)) in
  let new_idx :=
    clamp 0 (n - 1) (default 0 (ListView.index (results_list s)) + delta) in
  exists item,
    (c :: cs) !! Z.to_nat new_idx = Some item
    /\ 0 <= new_idx <= n - 1
    /\ shift_selection delta autoplay s =
         (Returned (),
          let s1 :=
            post_message (Selected item)
              (set_results_list (ListView.Build (c :: cs) (Some new_idx)) s) in
          if autoplay then play_video item s1 else s1).
Proof.
  intros Hc n new_idx.
  assert (Hrange : 0 <= new_idx <= n - 1).
  { unfold new_idx, clamp, n. simpl length. lia. }
  destruct (lookup_lt_is_Some_2 (c :: cs) (Z.to_nat new_idx)) as [item Hitem].
  { unfold n in Hrange. lia. }
  exists item. split; [done|]. split; [done|].
  unfold shift_selection, mbind, app_bind, bind, read, write. simpl.
  rewrite Hc, or_truthyZ_default, maxZ_minZ_clamp.
  fold n. fold new_idx.
  unfold action_select_cursor, ListView.highlighted_child, ListView.child,
    child_at, ListView.child, ListView.set_index.
  simpl. rewrite !Hc. destruct (Z.ltb_spec new_idx 0); [lia|].
  rewrite Hitem. destruct autoplay; simpl; [|done].
  destruct (Z.ltb_spec new_idx 0); [lia|]. by rewrite Hitem.
Qed.

Lemma shift_selection_safe (delta : Z) (autoplay : bool) :
  safe (shift_selection delta autoplay).
Proof.
  intros s. destruct (ListView.children (results_list s)) as [|c cs] eqn:Hc.
  - unfold raised, shift_selection, mbind, app_bind, bind, read. simpl.
    by rewrite Hc.
  - destruct (shift_selection_nonempty delta autoplay s c cs Hc)
      as (item & _ & _ & Heq).
    unfold raised. by rewrite Heq.
Qed.

(** ** Searches in flight *)

Lemma omap_delete_length {X Y} (f : X -> option Y) (l : list X) (i : nat) (x : X) :
  l !! i = Some x ->
  length (omap f l) =
    (length (omap f (delete i l))
     + match f x with Some _ => 1 | None => 0 end)%nat.
Proof.
  intros Hi. rewrite <- (take_drop_middle l i x Hi) at 1.
  rewrite delete_take_drop, !omap_app, !length_app. simpl.
  change (list_omap X Y f) with (omap (M:=list) f).
  destruct (f x); simpl; lia.
Qed.

Ltac frame_rules :=
  repeat first
    [ apply keeps_ret | apply keeps_read
    | apply keeps_bind; [|intros ?]
    | apply keeps_try_except; [|intros ?]
    | apply keeps_try_finally
    | apply keeps_write; intros ? [? ?]; split; simpl; assumption
    | match goal with |- keeps _ (if ?c then _ else _) => destruct c end ].

(** The handlers below leave the workers and the busy flag alone. *)
Lemma update_progress_frame ws b : keeps (search_frame ws b) update_progress.
Proof. unfold update_progress. frame_rules. Qed.

Lemma fetch_and_play_frame ws b video_id r :
  keeps (search_frame ws b) (fetch_and_play video_id r).
Proof. unfold fetch_and_play. frame_rules. Qed.

Lemma _download_and_set_frame ws b url r image :
  keeps (search_frame ws b) (_download_and_set url r image).
Proof. unfold _download_and_set. frame_rules. Qed.

Lemma action_seek_frame ws b :
  keeps (search_frame ws b) action_seek_forward
  /\ keeps (search_frame ws b) action_seek_backward.
Proof. unfold action_seek_forward, action_seek_backward. split; frame_rules. Qed.

Lemma frame_single_flight {A} (m : M A) :
  (forall ws b, keeps (search_frame ws b) m) -> keeps single_flight m.
Proof.
  intros H s Hs. unfold single_flight, in_flight in *.
  by destruct (H (workers s) (_search_busy s) s) as [-> ->].
Qed.

Lemma workers_foldl_append_entry (es : list Entry.t) (s : t) :
  workers (foldl append_entry s es) = workers s
  /\ _search_busy (foldl append_entry s es) = _search_busy s
  /\ notifications (foldl append_entry s es) = notifications s.
Proof.
  revert s. induction es as [|e es IH]; intros s; [done|].
  simpl. by destruct (IH (append_entry s e)) as (-> & -> & ->).
Qed.

(** [perform_search] leaves the workers alone and clears the flag. *)
Lemma perform_search_workers (r : Extracted) (s : t) :
  workers (exec (perform_search r) s) = workers s
  /\ _search_busy (exec (perform_search r) s) = Some false.
Proof.
  unfold exec, perform_search, try_finally, try_except, mbind, app_bind, bind,
    read, write.
  destruct r as [[[[[|e es]|] u]|]|e]; simpl; try done.
  split; [|done].
  by destruct (workers_foldl_append_entry es (append_entry s e)) as [-> _].
Qed.

Lemma play_video_workers (item : SearchResultItem.t) (s : t) :
  workers (play_video item s) =
    workers s ++ [DownloadAndSet (SearchResultItem.thumb_url item);
                  FetchAndPlay (SearchResultItem.video_id item)]
  /\ _search_busy (play_video item s) = _search_busy s.
Proof. simpl. by rewrite <- app_assoc. Qed.

Lemma play_video_single_flight (item : SearchResultItem.t) (s : t) :
  single_flight s -> single_flight (play_video item s).
Proof.
  unfold single_flight, in_flight.
  destruct (play_video_workers item s) as [-> ->].
  rewrite omap_app, length_app. simpl. lia.
Qed.

Lemma shift_selection_single_flight (delta : Z) (autoplay : bool) :
  keeps single_flight (shift_selection delta autoplay).
Proof.
  intros s Hs. destruct (ListView.children (results_list s)) as [|c cs] eqn:Hc.
  - unfold exec, shift_selection, mbind, app_bind, bind, read. simpl.
    by rewrite Hc.
  - destruct (shift_selection_nonempty delta autoplay s c cs Hc)
      as (item & _ & _ & Heq).
    unfold exec. rewrite Heq. simpl snd.
    destruct autoplay; [apply play_video_single_flight|]; exact Hs.
Qed.

Lemma on_input_submitted_single_flight (query : string) (s : t) :
  single_flight s -> single_flight (on_input_submitted query s).
Proof.
  unfold on_input_submitted, single_flight, in_flight.
  destruct (String.eqb query ""); [done|].
  destruct (default false (_search_busy s)) eqn:Hb; simpl; [by rewrite Hb|done].
Qed.

Lemma play_selected_workers (s : t) :
  workers (play_selected s) = workers s
  /\ _search_busy (play_selected s) = _search_busy s.
Proof.
  unfold play_selected, action_select_cursor. cbv zeta.
  by repeat case_match.
Qed.

Lemma play_selected_single_flight (s : t) :
  single_flight s -> single_flight (play_selected s).
Proof.
  unfold single_flight, in_flight.
  by destruct (play_selected_workers s) as [-> ->].
Qed.

(** Whatever ends a worker that is not a search leaves the count alone;
    the end of a search takes the count to zero and the flag with it. *)
Lemma resume_extract_single_flight (i : nat) (r : Extracted) :
  keeps single_flight (Loop.resume_extract i r).
Proof.
  intros s Hs. unfold exec, Loop.resume_extract, mbind, app_bind, bind, read.
  simpl. destruct (workers s !! i) as [[query|video_id|url]|] eqn:Hi;
    simpl; try done.
  - fold (exec (perform_search r) (set_workers (delete i (workers s)) s)).
    unfold single_flight, in_flight in *.
    destruct (perform_search_workers r (set_workers (delete i (workers s)) s))
      as [-> ->].
    simpl. rewrite (omap_delete_length pending_query _ i _ Hi) in Hs.
    simpl in Hs. destruct (default false (_search_busy s)); lia.
  - fold (exec (fetch_and_play video_id r)
               (set_workers (delete i (workers s)) s)).
    unfold single_flight, in_flight in *.
    destruct (fetch_and_play_frame (delete i (workers s)) (_search_busy s)
                video_id r (set_workers (delete i (workers s)) s))
      as [-> ->]; [done|].
    rewrite (omap_delete_length pending_query _ i _ Hi) in Hs.
    simpl in Hs. by rewrite Nat.add_0_r in Hs.
Qed.

Lemma resume_http_single_flight (i : nat) (r : outcome Response.t)
    (image : TextualImage) :
  keeps single_flight (Loop.resume_http i r image).
Proof.
  intros s Hs. unfold exec, Loop.resume_http, mbind, app_bind, bind, read.
  simpl. destruct (workers s !! i) as [[query|video_id|url]|] eqn:Hi;
    simpl; try done.
  fold (exec (_download_and_set url r image)
             (set_workers (delete i (workers s)) s)).
  unfold single_flight, in_flight in *.
  destruct (_download_and_set_frame (delete i (workers s)) (_search_busy s)
              url r image (set_workers (delete i (workers s)) s))
    as [-> ->]; [done|].
  rewrite (omap_delete_length pending_query _ i _ Hi) in Hs.
  simpl in Hs. by rewrite Nat.add_0_r in Hs.
Qed.

Lemma action_single_flight (key : string) :
  keeps single_flight (Loop.action key).
Proof.
  unfold Loop.action.
  repeat (match goal with |- context [String.eqb key ?k] =>
            destruct (String.eqb key k) end;
          [first [ apply shift_selection_single_flight
                 | apply keeps_write, play_selected_single_flight
                 | apply frame_single_flight; intros; apply action_seek_frame
                 | by apply keeps_write; intros s Hs ]|]).
  apply keeps_ret.
Qed.

Lemma handle_single_flight (ev : Loop.Event) :
  keeps single_flight (Loop.handle ev).
Proof.
  destruct ev; simpl.
  - apply keeps_write, on_input_submitted_single_flight.
  - apply action_single_flight.
  - unfold Loop.on_button_pressed.
    repeat (match goal with |- context [String.eqb btn_id ?k] =>
              destruct (String.eqb btn_id k) end;
            [first [ apply shift_selection_single_flight
                   | by apply keeps_write; intros s Hs ]|]).
    apply keeps_ret.
  - intros s Hs. unfold exec, Loop.deliver, mbind, app_bind, bind, read, write.
    simpl. destruct (messages s) as [|[item] rest]; simpl; [done|].
    by apply (play_video_single_flight item (set_messages rest s)).
  - apply frame_single_flight, update_progress_frame.
  - apply resume_extract_single_flight.
  - apply resume_http_single_flight.
  - apply keeps_write. intros s Hs. unfold Loop.resume_thumb.
    destruct (ListView.children (results_list s) !! i) as [item|]; [|done].
    destruct (SearchResultItem.loading item); [|done].
    by destruct (SearchResultItem._download_thumb _ _ _ _ _) as [[? ?] ?].
  - by apply keeps_write.
Qed.

Lemma reachable_single_flight (evs : list Loop.Event) :
  single_flight (exec (Loop.run evs) init).
Proof. apply keeps_run; [apply handle_single_flight | done]. Qed.

Lemma eqb_empty_false (query : string) : query <> "" -> String.eqb query "" = false.
Proof. intros H. by apply String.eqb_neq. Qed.

(** C3. A non-empty query submitted while the busy flag is set only adds the
    notice "Search already in progress." (a warning): the result list, the
    busy flag, the workers and the status line are as before. In every state
    the event loop reaches from start-up, the number of searches in flight
    is one when the flag is set and none otherwise, so never more than
    one. *)
Theorem busy_submit_rejected (query : string) (self : t)
    (evs : list Loop.Event) :
  query <> "" ->
  _search_busy self = Some true ->
  let self' := on_input_submitted query self in
  self' = notify "Search already in progress." "warning" self
  /\ notifications self' =
       notifications self ++ [Notify "Search already in progress." "warning"]
  /\ results_list self' = results_list self
  /\ _search_busy self' = _search_busy self
  /\ workers self' = workers self
  /\ status_line self' = status_line self
  /\ single_flight (exec (Loop.run evs) init)
  /\ (length (in_flight (exec (Loop.run evs) init)) <= 1)%nat.
Proof.
  intros Hq Hb. unfold on_input_submitted.
  rewrite (eqb_empty_false query Hq), Hb. simpl.
  repeat split; try done.
  - apply reachable_single_flight.
  - rewrite (reachable_single_flight evs). case_match; lia.
Qed.

Lemma busy_submit_rejected_witness :
  let s0 := exec (Loop.run [Loop.InputSubmitted "lofi"]) init in
  "jazz" <> "" /\ _search_busy s0 = Some true
  /\ results_list (on_input_submitted "jazz" s0) = results_list s0
  /\ in_flight (on_input_submitted "jazz" s0) = ["lofi"].
Proof.
  split; [done|]. split; [reflexivity|]. split; [|reflexivity].
  apply (busy_submit_rejected "jazz"
           (exec (Loop.run [Loop.InputSubmitted "lofi"]) init) []);
    [done | reflexivity].
Defined.

(** ** The end of a search *)

(** C4. However [extract_info] answers - with entries, with none, or by
    failing - [perform_search] returns without raising, reports the ending
    with one notice and leaves the busy flag cleared; a non-empty query
    submitted next is accepted: the flag is set again, its search is the
    one worker, and no notice is added. *)
Theorem search_clears_busy (r : Extracted) (self : t) (query : string) :
  query <> "" ->
  let self' := exec (perform_search r) self in
  raised (perform_search r) self = None
  /\ _search_busy self' = Some false
  /\ notifications self' =
       notifications self ++
         [match ending r with
          | Found _ _ => Notify "Search completed." "information"
          | NoResults => Notify "No results found." "warning"
          | Failure msg => Notify ("Search failed: " +:+ msg) "error"
          end]
  /\ _search_busy (on_input_submitted query self') = Some true
  /\ workers (on_input_submitted query self') = [PerformSearch query]
  /\ notifications (on_input_submitted query self') = notifications self'.
Proof.
  intros Hq self'.
  assert (Hb : _search_busy self' = Some false) by apply perform_search_workers.
  split; [apply perform_search_safe|]. split; [done|]. split.
  - unfold self', exec, perform_search, try_finally, try_except, mbind,
      app_bind, bind, read, write.
    destruct r as [[[[[|e es]|] u]|]|e]; simpl; try done.
    by destruct (workers_foldl_append_entry es (append_entry self e))
      as (_ & _ & ->).
  - unfold on_input_submitted. rewrite (eqb_empty_false query Hq), Hb. done.
Qed.

Lemma search_clears_busy_witness :
  "jazz" <> ""
  /\ _search_busy
       (exec (perform_search (Raised (Exception "DownloadError" "offline")))
             (on_input_submitted "lofi" init)) = Some false.
Proof.
  split; [done|].
  apply (search_clears_busy (Raised (Exception "DownloadError" "offline"))
           (on_input_submitted "lofi" init) "jazz").
  done.
Defined.

(** ** The cursor *)

Lemma move_shift (m : Move) : move m = shift_selection (delta_of m) true.
Proof. by destruct m. Qed.

(** One call on a non-empty list: the list is the same, the index is the
    clamp of the shifted one, [Selected] is posted for the item there and
    the item is played. *)
Lemma move_nonempty (m : Move) (s : t) (c : SearchResultItem.t)
    (cs : list SearchResultItem.t) :
  ListView.children (results_list s) = c :: cs ->
  let n := Z.of_nat (length (c :: cs)) in
  let i := clamp 0 (n - 1)
             (default 0 (ListView.index (results_list s)) + delta_of m) in
  exists item,
    (c :: cs) !! Z.to_nat i = Some item
    /\ 0 <= i <= n - 1
    /\ raised (move m) s = None
    /\ exec (move m) s =
         play_video item
           (post_message (Selected item)
              (set_results_list (ListView.Build (c :: cs) (Some i)) s)).
Proof.
  intros Hc n i. rewrite move_shift.
  destruct (shift_selection_nonempty (delta_of m) true s c cs Hc)
    as (item & Hitem & Hrange & Heq).
  exists item. unfold raised, exec. by rewrite Heq.
Qed.

Lemma moves_in_bounds (ms : list Move) (s : t) (c : SearchResultItem.t)
    (cs : list SearchResultItem.t) (m : Move) :
  ListView.children (results_list s) = c :: cs ->
  raised (moves (m :: ms)) s = None
  /\ ListView.children (results_list (exec (moves (m :: ms)) s)) = c :: cs
  /\ exists i, ListView.index (results_list (exec (moves (m :: ms)) s)) = Some i
               /\ 0 <= i <= Z.of_nat (length (c :: cs)) - 1.
Proof.
  revert s m. induction ms as [|m' ms IH]; intros s m Hc.
  - destruct (move_nonempty m s c cs Hc) as (item & _ & Hr & Hsafe & Hex).
    simpl moves.
    destruct (exec_bind_safe (move m) (fun _ => mret ()) s) as ([] & -> & ->).
    { rewrite move_shift. apply shift_selection_safe. }
    rewrite Hex. split; [done|]. split; [done|]. by eexists.
  - destruct (move_nonempty m s c cs Hc) as (item & _ & Hr & Hsafe & Hex).
    change (moves (m :: m' :: ms)) with (move m;; moves (m' :: ms)).
    destruct (exec_bind_safe (move m) (fun _ => moves (m' :: ms)) s)
      as ([] & -> & ->).
    { rewrite move_shift. apply shift_selection_safe. }
    apply IH. by rewrite Hex.
Qed.

(** C6. On a non-empty result list of length [n], after any sequence of
    next/previous calls (at least one) nothing was raised, the list is the
    same and the index is within [0, n-1]; one call moves the index to the
    clamp of its shift, so there is no wraparound. Next at the last index
    and previous at index 0 leave the index where it is and still post
    [Selected] for the item there and play it: the item becomes the current
    one, the label reads "Loading" and its stream resolution is started. *)
Theorem cursor_stays_in_bounds (self : t) (c : SearchResultItem.t)
    (cs : list SearchResultItem.t) (m : Move) (ms : list Move) :
  ListView.children (results_list self) = c :: cs ->
  let n := Z.of_nat (length (c :: cs)) in
  let boundary (m : Move) : Z := match m with Next => n - 1 | Prev => 0 end in
  (raised (moves (m :: ms)) self = None
   /\ ListView.children (results_list (exec (moves (m :: ms)) self)) = c :: cs
   /\ exists i,
        ListView.index (results_list (exec (moves (m :: ms)) self)) = Some i
        /\ 0 <= i <= n - 1)
  /\ ListView.index (results_list (exec (move m) self)) =
       Some (clamp 0 (n - 1)
               (default 0 (ListView.index (results_list self)) + delta_of m))
  /\ (ListView.index (results_list self) = Some (boundary m) ->
      let self' := exec (move m) self in
      exists item,
        (c :: cs) !! Z.to_nat (boundary m) = Some item
        /\ ListView.index (results_list self') = Some (boundary m)
        /\ messages self' = messages self ++ [Selected item]
        /\ workers self' =
             workers self ++
               [DownloadAndSet (SearchResultItem.thumb_url item);
                FetchAndPlay (SearchResultItem.video_id item)]
        /\ current_video_id self' = SearchResultItem.video_id item
        /\ current_title self' = SearchResultItem.title_text item
        /\ state_label self' = "Loading").
Proof.
  intros Hc n boundary. split; [by apply moves_in_bounds|].
  destruct (move_nonempty m self c cs Hc) as (item & Hitem & Hr & _ & Hex).
  split; [by rewrite Hex|].
  intros Hb. rewrite Hb in Hitem, Hex. simpl default in Hitem, Hex.
  assert (Hi : clamp 0 (Z.of_nat (length (c :: cs)) - 1)
                 (boundary m + delta_of m) = boundary m).
  { unfold clamp, boundary, n. simpl length. destruct m; simpl delta_of; lia. }
  rewrite Hi in Hitem, Hex. exists item. split; [done|].
  rewrite Hex. simpl. by rewrite <- app_assoc.
Qed.

Lemma cursor_stays_in_bounds_witness :
  let s := set_results_list (ListView.Build [item_a; item_b] (Some 1)) init in
  ListView.children (results_list s) = [item_a; item_b]
  /\ ListView.index (results_list (exec (move Next) s)) = Some 1.
Proof.
  split; [reflexivity|].
  apply (cursor_stays_in_bounds
           (set_results_list (ListView.Build [item_a; item_b] (Some 1)) init)
           item_a [item_b] Next []).
  reflexivity.
Defined.

(** ** Play/pause *)

(** C7, as stated, fails: in the idle state after start-up, and in the
    loading state right after a selection, [toggle_play_pause] writes the
    engine's pause property and changes the state label to "Paused". *)
Lemma toggle_pause_idle_loading_calls_engine :
  session_state init = Some Idle
  /\ engine_log init = [MPV.SetVolume 80]
  /\ engine_log (toggle_play_pause init) = [MPV.SetVolume 80; MPV.SetPause true]
  /\ session_state (toggle_play_pause init) = Some Paused
  /\ session_state (play_video item_a init) = Some Loading
  /\ engine_log (toggle_play_pause (play_video item_a init))
       = [MPV.SetVolume 80; MPV.SetPause true]
  /\ session_state (toggle_play_pause (play_video item_a init)) = Some Paused
  /\ toggle_play_pause init <> init.
Proof. repeat split; try reflexivity. discriminate. Qed.

(** C7, amended. In every state of the application [toggle_play_pause]
    calls the engine: it writes the negated pause flag to the engine, and
    shows what the engine then reports - the label "Paused" and the play
    button when paused, "Playing" and the pause button otherwise. Nothing
    else of the application changes. *)
Theorem toggle_play_pause_always_toggles (self : t) :
  let paused := negb (MPV.pause (AudioPlayer.mpv (player self))) in
  let self' := toggle_play_pause self in
  engine_log self' = engine_log self ++ [MPV.SetPause paused]
  /\ MPV.pause (AudioPlayer.mpv (player self')) = paused
  /\ state_label self' = (if paused then "Paused" else "Playing")
  /\ btn_play_pause self' = (if paused then "▶" else "⏸")
  /\ self' =
       set_state_label (if paused then "Paused" else "Playing")
         (set_btn_play_pause (if paused then "▶" else "⏸")
            (set_player
               (AudioPlayer.Build
                  (MPV.set_pause paused (AudioPlayer.mpv (player self))))
               self)).
Proof. done. Qed.

(** ** Late stream resolutions *)

(** C1, as stated, fails. A is selected, then B; the resolution of A stays
    pending as worker 1 and arrives afterwards. While B is still loading, a
    stream URL for A makes the engine play A's URL and the label read
    "Playing", and a failure for A makes the label read "Error" and shows
    A's message. When B's stream is already playing, the late URL for A
    makes the engine play A's URL over it. B is the current item
    throughout. *)
Lemma late_resolution_is_applied :
  let s := play_video item_b (play_video item_a init) in
  workers s !! 1%nat = Some (FetchAndPlay (Some "idA"))
  /\ current_video_id s = Some "idB"
  /\ session_state s = Some Loading
  /\ engine_log s = [MPV.SetVolume 80]
  /\ (let s' := exec (Loop.handle (Loop.Extract 1 (resolved "https://cdn/a"))) s in
      engine_log s' = [MPV.SetVolume 80; MPV.Play "https://cdn/a"]
      /\ session_state s' = Some Playing
      /\ current_video_id s' = Some "idB")
  /\ (let s' := exec (Loop.handle
                        (Loop.Extract 1 (Raised (Exception "DownloadError"
                                                   "A is unavailable")))) s in
      session_state s' = Some Errored
      /\ status_line s' = "A is unavailable"
      /\ current_video_id s' = Some "idB")
  /\ (let s' := exec (Loop.run [Loop.Extract 3 (resolved "https://cdn/b");
                                Loop.Extract 1 (resolved "https://cdn/a")]) s in
      engine_log s' =
        [MPV.SetVolume 80; MPV.Play "https://cdn/b"; MPV.Play "https://cdn/a"]
      /\ session_state s' = Some Playing
      /\ current_video_id s' = Some "idB").
Proof. repeat split; reflexivity. Qed.

Lemma lookup_app_add {X} (ws l : list X) (k : nat) :
  (ws ++ l) !! (length ws + k)%nat = l !! k.
Proof. rewrite lookup_app_r by lia. f_equal. lia. Qed.

Lemma delete_app_add {X} (ws l : list X) (k : nat) :
  delete (length ws + k)%nat (ws ++ l) = ws ++ delete k l.
Proof. induction ws as [|w ws IH]; simpl; [done | by f_equal]. Qed.

(** Resuming a stream-resolution worker removes it from the pending ones
    and runs the rest of [fetch_and_play], which looks at nothing but the
    answer. *)
Lemma resume_fetch_exec (i : nat) (r : Extracted) (s : t)
    (video_id : option string) :
  workers s !! i = Some (FetchAndPlay video_id) ->
  exec (Loop.handle (Loop.Extract i r)) s =
    let s1 := set_workers (delete i (workers s)) s in
    match stream_url r with
    | Returned play_url =>
        set_status_line ""
          (set_state_label "Playing"
             (set_player (AudioPlayer.play play_url (player s1)) s1))
    | Raised e =>
        set_status_line (exn_msg e)
          (set_state_label "Error"
             (notify ("Error fetching stream: " +:+ exn_msg e) "error" s1))
    end.
Proof.
  intros Hi. simpl Loop.handle.
  unfold exec, Loop.resume_extract, mbind at 1, app_bind, bind, read at 1.
  simpl. rewrite Hi. simpl.
  unfold stream_url, fetch_and_play, try_except, mbind, app_bind,
    outcome_bind, bind, Py.bind, read, write.
  destruct r as [[info|]|e]; simpl; [destruct (Info.url info)|..]; done.
Qed.

Lemma resume_fetch_fields (i : nat) (r : Extracted) (s : t)
    (video_id : option string) :
  workers s !! i = Some (FetchAndPlay video_id) ->
  let s' := exec (Loop.handle (Loop.Extract i r)) s in
  current_video_id s' = current_video_id s
  /\ current_title s' = current_title s
  /\ workers s' = delete i (workers s)
  /\ match stream_url r with
     | Returned play_url =>
         engine_log s' = engine_log s ++ [MPV.Play play_url]
         /\ state_label s' = "Playing"
         /\ status_line s' = ""
         /\ notifications s' = notifications s
     | Raised e =>
         engine_log s' = engine_log s
         /\ state_label s' = "Error"
         /\ status_line s' = exn_msg e
         /\ notifications s' =
              notifications s ++
                [Notify ("Error fetching stream: " +:+ exn_msg e) "error"]
     end.
Proof.
  intros Hi s'. unfold s'. rewrite (resume_fetch_exec i r s video_id Hi).
  by destruct (stream_url r).
Qed.

(** C1, amended. Select A, then B, from any state: B is the current item,
    loading, and the resolution of A is a pending worker. It stays one
    whether or not B's own resolution arrives first. When A's resolution
    then arrives it is applied whatever the current item is: with a stream
    URL the engine is told to play that URL and the label reads "Playing";
    with a failure the engine is left alone, the label reads "Error" and the
    failure is shown and notified. The current item stays B. *)
Theorem late_resolution_not_discarded (self : t)
    (a b : SearchResultItem.t) (rb : option Extracted) (ra : Extracted) :
  let i := S (length (workers self)) in
  let selected := play_video b (play_video a self) in
  let s :=
    match rb with
    | None => selected
    | Some r => exec (Loop.handle (Loop.Extract (i + 2) r)) selected
    end in
  let s' := exec (Loop.handle (Loop.Extract i ra)) s in
  (current_video_id selected = SearchResultItem.video_id b
   /\ state_label selected = "Loading"
   /\ engine_log selected = engine_log self)
  /\ workers s !! i = Some (FetchAndPlay (SearchResultItem.video_id a))
  /\ current_video_id s = SearchResultItem.video_id b
  /\ raised (Loop.handle (Loop.Extract i ra)) s = None
  /\ current_video_id s' = SearchResultItem.video_id b
  /\ current_title s' = SearchResultItem.title_text b
  /\ match stream_url ra with
     | Returned play_url =>
         engine_log s' = engine_log s ++ [MPV.Play play_url]
         /\ state_label s' = "Playing"
         /\ status_line s' = ""
         /\ notifications s' = notifications s
     | Raised e =>
         engine_log s' = engine_log s
         /\ state_label s' = "Error"
         /\ status_line s' = exn_msg e
         /\ notifications s' =
              notifications s ++
                [Notify ("Error fetching stream: " +:+ exn_msg e) "error"]
     end.
Proof.
  intros i selected s s'.
  assert (Hw : workers selected =
               workers self ++
                 [DownloadAndSet (SearchResultItem.thumb_url a);
                  FetchAndPlay (SearchResultItem.video_id a);
                  DownloadAndSet (SearchResultItem.thumb_url b);
                  FetchAndPlay (SearchResultItem.video_id b)]).
  { unfold selected. simpl. by rewrite <- !app_assoc. }
  assert (Hs : workers s !! i = Some (FetchAndPlay (SearchResultItem.video_id a))
               /\ current_video_id s = SearchResultItem.video_id b
               /\ current_title s = SearchResultItem.title_text b).
  { unfold s, i. replace (S (length (workers self)))
      with (length (workers self) + 1)%nat by lia.
    destruct rb as [r|].
    - assert (Hb : workers selected !! (length (workers self) + 1 + 2)%nat
                   = Some (FetchAndPlay (SearchResultItem.video_id b))).
      { rewrite Hw.
        replace (length (workers self) + 1 + 2)%nat
          with (length (workers self) + 3)%nat by lia.
        by rewrite lookup_app_add. }
      destruct (resume_fetch_fields _ r selected _ Hb) as (-> & -> & -> & _).
      rewrite Hw.
      replace (length (workers self) + 1 + 2)%nat
        with (length (workers self) + 3)%nat by lia.
      by rewrite delete_app_add, lookup_app_add.
    - by rewrite Hw, lookup_app_add. }
  destruct Hs as (Hi & Hid & Htitle).
  split; [done|]. split; [done|]. split; [done|].
  split; [apply resume_extract_safe|].
  destruct (resume_fetch_fields i ra s _ Hi) as (Hid' & Htitle' & _ & Hres).
  fold s' in Hid', Htitle', Hres.
  rewrite Hid', Htitle'. done.
Qed.

(** ** The progress tick *)

Lemma maxQ_1_pos (q : Q) : Qltb 0%Q (maxQ q 1%Q) = true.
Proof.
  unfold maxQ, Qltb. destruct (Qle_bool 1 q) eqn:H1; simpl; [|done].
  apply Qle_bool_iff in H1.
  destruct (Qle_bool q 0) eqn:H0; [|done].
  apply Qle_bool_iff in H0.
  exfalso. apply (Qle_not_lt 1 0); [by eapply Qle_trans|done].
Qed.

(** Float arithmetic on examples: a third; 29 / 100 and its product with
    100, which lies below 29; the difference of the floats nearest to 100.3
    and 0.3, which is 100; a tie between two floats at the smallest
    spacing, which goes to the even one; results beyond the largest
    float. *)
Lemma round64_examples :
  round64 (1 # 3)%Q = Finite (6004799503160661 # 18014398509481984)%Q
  /\ fdiv 29%Q 100%Q = Finite (5224175567749775 # 18014398509481984)%Q
  /\ fmul (fdiv 29%Q 100%Q) 100%Q
     = Finite (8162774324609023 # 281474976710656)%Q
  /\ int_float (fmul (fdiv 29%Q 100%Q) 100%Q) = Returned 28
  /\ fsub (7057985041019699 # 70368744177664)%Q
          (5404319552844595 # 18014398509481984)%Q = Finite 100%Q
  /\ round64 (3 # Z.to_pos (2 ^ 1075))%Q = Finite (1 # Z.to_pos (2 ^ 1073))%Q
  /\ round64 (inject_Z (2 ^ 1024 - 2 ^ 970 - 1))
     = Finite (inject_Z (2 ^ 1024 - 2 ^ 971))
  /\ round64 (inject_Z (2 ^ 1024 - 2 ^ 970)) = Infinity false
  /\ fmul (fdiv (inject_Z (- 2 ^ 1000)) (1 # Z.to_pos (2 ^ 100))%Q) 100%Q
     = Infinity true.
Proof. repeat split; vm_compute; reflexivity. Qed.

(** The duration the tick computes with, and the percentage it shows.
    A missing or zero duration has become 1 in [get_duration] before the
    tick looks at it; only a negative one reaches the tick's own
    substitution by [max(curr, 1)]. A percentage that is no finite float
    makes [int] raise before anything is written. *)
Lemma tick_duration (position duration : option Q) (self : t) :
  let curr := or_ truthyQ position 0%Q in
  let total :=
    match duration with
    | None => 1%Q
    | Some d =>
        if Qeq_bool d 0%Q then 1%Q
        else if Qle_bool d 0%Q then maxQ curr 1%Q
        else d
    end in
  let self' := exec update_progress (engine_reports position duration self) in
  match int_float (fmul (fdiv curr total) 100%Q) with
  | Returned percent =>
      progress_bar self' = Bar total curr
      /\ progress_label self' = str percent +:+ "%"
  | Raised _ => self' = engine_reports position duration self
  end.
Proof.
  intros curr total.
  assert (Hpos : Qltb 0%Q total = true).
  { unfold total. destruct duration as [d|]; [|done].
    destruct (Qeq_bool d 0); [done|].
    destruct (Qle_bool d 0) eqn:Hle; [apply maxQ_1_pos|].
    unfold Qltb. by rewrite Hle. }
  assert (Ht : (if negb (truthyQ (or_ truthyQ duration 1%Q))
                   || Qle_bool (or_ truthyQ duration 1%Q) 0%Q
                then maxQ curr 1%Q else or_ truthyQ duration 1%Q) = total).
  { unfold total.
    destruct duration as [d|]; simpl; [|done].
    unfold truthyQ. destruct (Qeq_bool d 0) eqn:Hz; simpl; [done|].
    rewrite Hz. simpl. by destruct (Qle_bool d 0). }
  unfold exec, update_progress, try_except, mbind, app_bind, bind, read, write,
    engine_reports. simpl. fold curr. rewrite Ht, Hpos.
  destruct (int_float _) as [percent|e]; [|done].
  by destruct (_fmt_time_float _).
Qed.

(** C2, evaluated. With position 0 and duration 0 the tick shows 0%, as
    the specification says. With position 5 and a duration that is 0 or
    missing it computes with the duration 1 and shows 500% on a bar of
    total 1, where the specification has duration 5 and 100%. With position
    5 and the negative duration -3 it computes with max(5, 1) = 5 and shows
    100%. *)
Theorem zero_duration_percent (self : t) :
  let tick position duration :=
    exec update_progress (engine_reports position duration self) in
  (progress_label (tick (Some 0%Q) (Some 0%Q)) = "0%"
   /\ progress_bar (tick (Some 0%Q) (Some 0%Q)) = Bar 1%Q 0%Q)
  /\ (progress_label (tick (Some 5%Q) (Some 0%Q)) = "500%"
      /\ progress_bar (tick (Some 5%Q) (Some 0%Q)) = Bar 1%Q 5%Q
      /\ remaining_label (tick (Some 5%Q) (Some 0%Q)) = "-00:00")
  /\ (progress_label (tick (Some 5%Q) None) = "500%"
      /\ progress_bar (tick (Some 5%Q) None) = Bar 1%Q 5%Q)
  /\ (progress_label (tick (Some 5%Q) (Some (-3)%Q)) = "100%"
      /\ progress_bar (tick (Some 5%Q) (Some (-3)%Q)) = Bar 5%Q 5%Q).
Proof. repeat split; reflexivity. Qed.

(** A tick whose reads fail leaves everything as it was. *)
Lemma tick_failed_read (self : t) :
  tick_read_fails self = true -> update_progress self = (Returned (), self).
Proof.
  intros Hf. unfold tick_read_fails in Hf.
  unfold update_progress, try_except, mbind, app_bind, bind, read,
    AudioPlayer.get_time_pos, AudioPlayer.get_duration, mbind, outcome_bind,
    Py.bind.
  simpl.
  destruct (getattr_default _ false) as [[|]|e]; simpl; try done.
  destruct (MPV.time_pos _) as [tp|e]; simpl; [|done].
  destruct (MPV.duration _) as [d|e]; simpl; done.
Qed.

(** A tick returns. *)
Lemma tick_returns (self : t) :
  update_progress self = (Returned (), exec update_progress self).
Proof.
  pose proof (update_progress_safe self) as H. unfold raised, exec in *.
  destruct (update_progress self) as [[[]|e] s']; simpl in *; done.
Qed.

(** What [getattr] makes of the read of [core_idle] is all the tick sees
    of it. *)
Lemma tick_core_idle (ci ci' : outcome bool) (self : t) :
  getattr_default ci false = getattr_default ci' false ->
  exec update_progress (with_core_idle ci self)
  = with_core_idle ci (exec update_progress (with_core_idle ci' self)).
Proof.
  intros H.
  destruct self as [[[tp d c v p snt]] ? ? ? ? ? ? ? ? ? ? ? ? ? ? ? ? ? ?].
  unfold exec, update_progress, try_except, mbind, app_bind, bind, read, write,
    with_core_idle, Loop.set_engine, AudioPlayer.get_time_pos,
    AudioPlayer.get_duration, mbind, outcome_bind, Py.bind.
  simpl. rewrite H.
  destruct (getattr_default ci' false) as [[|]|e]; simpl; try done.
  destruct tp as [tp|e]; simpl; [|done].
  destruct d as [d|e]; simpl; [|done].
  destruct (Qltb 0 _); simpl; [|done].
  destruct (int_float _); simpl; [|done].
  by destruct (_fmt_time_float _).
Qed.

(** C9, as stated, fails for one failure. The read of [core_idle] raises an
    [AttributeError] while the engine reports position 25 of 100 seconds:
    [getattr] answers [False] in its place, and the tick rewrites the
    display, which showed 0% at 00:00, to 25% at 00:25. *)
Lemma attribute_error_tick_updates_display :
  let e := Exception "AttributeError" "mpv property does not exist" in
  let s := Loop.set_engine (Returned (Some 25%Q)) (Returned (Some 100%Q))
             (Raised e) init in
  MPV.core_idle (AudioPlayer.mpv (player s)) = Raised e
  /\ raised update_progress s = None
  /\ (progress_label s = "0%" /\ elapsed_label s = "00:00")
  /\ progress_label (exec update_progress s) = "25%"
  /\ elapsed_label (exec update_progress s) = "00:25"
  /\ remaining_label (exec update_progress s) = "-01:15"
  /\ progress_bar (exec update_progress s) = Bar 100%Q 25%Q.
Proof. repeat split; vm_compute; reflexivity. Qed.

(** C9, amended. No tick raises, whatever the reads of the engine do, and
    the event loop goes on with the events that follow. When a read fails
    - the position, the duration, or [core_idle] with anything but an
    [AttributeError] - the tick leaves the whole application state, the
    display included, as it was. An [AttributeError] (of a subclass too)
    from the read of [core_idle] is not a failed read of the tick: [getattr]
    answers [False] for it, and the tick does what it does for an engine
    that reports not to be idle. *)
Theorem tick_swallows_read_failures (self : t) (evs : list Loop.Event) :
  raised update_progress self = None
  /\ Loop.run (Loop.Interval :: evs) self
     = Loop.run evs (exec update_progress self)
  /\ (tick_read_fails self = true ->
      update_progress self = (Returned (), self)
      /\ exec update_progress self = self
      /\ Loop.run (Loop.Interval :: evs) self = Loop.run evs self)
  /\ (forall e,
        MPV.core_idle (AudioPlayer.mpv (player self)) = Raised e ->
        (isinstance e "AttributeError" = false -> tick_read_fails self = true)
        /\ (isinstance e "AttributeError" = true ->
            exec update_progress self
            = with_core_idle (Raised e)
                (exec update_progress (with_core_idle (Returned false) self)))).
Proof.
  assert (Hrun : forall s', update_progress self = (Returned (), s') ->
            Loop.run (Loop.Interval :: evs) self = Loop.run evs s').
  { intros s' He. simpl. unfold mbind, app_bind, bind. by rewrite He. }
  split; [apply update_progress_safe|].
  split; [apply Hrun, tick_returns|].
  split.
  - intros Hf. pose proof (tick_failed_read self Hf) as He.
    split; [done|]. split; [unfold exec; by rewrite He|by apply Hrun].
  - intros e He. split.
    + intros Hi. unfold tick_read_fails, getattr_default. by rewrite He, Hi.
    + intros Hi.
      assert (Hs : self = with_core_idle (Raised e) self).
      { destruct self as [[[tp d c v p snt]] ? ? ? ? ? ? ? ? ? ? ? ? ? ? ? ? ? ?].
        simpl in He. by subst c. }
      rewrite Hs at 1. apply tick_core_idle. simpl. by rewrite Hi.
Qed.

Lemma tick_swallows_read_failures_witness :
  let s := Loop.set_engine (Returned (Some 5%Q))
             (Raised (Exception "ShutdownError" "core has shut down"))
             (Returned false) init in
  let e := Instance "PropertyError" ["AttributeError"] "no such property" in
  let s' := Loop.set_engine (Returned (Some 25%Q)) (Returned (Some 100%Q))
              (Raised e) init in
  (tick_read_fails s = true /\ exec update_progress s = s)
  /\ (isinstance e "AttributeError" = true
      /\ progress_label (exec update_progress s') = "25%").
Proof.
  split.
  - split; [reflexivity|].
    apply (tick_swallows_read_failures
             (Loop.set_engine (Returned (Some 5%Q))
                (Raised (Exception "ShutdownError" "core has shut down"))
                (Returned false) init) []).
    reflexivity.
  - split; [reflexivity|].
    destruct (tick_swallows_read_failures
                (Loop.set_engine (Returned (Some 25%Q)) (Returned (Some 100%Q))
                   (Raised (Instance "PropertyError" ["AttributeError"]
                              "no such property")) init) [])
      as (_ & _ & _ & H).
    destruct (H _ eq_refl) as [_ H'].
    rewrite (H' eq_refl). reflexivity.
Defined.

(** ** Thumbnails *)

Import SearchResultItem.

(** The three ways through [_download_thumb]: no URL, a cached id, and a
    fetch. *)
Lemma download_thumb_no_url (get : string -> outcome Response.t)
    (image : TextualImage)
    (it : SearchResultItem.t) (cache : gmap (option string) (list byte))
    (gets : list string) :
  thumb_url it = "" ->
  _download_thumb get image it cache gets =
    (update_thumb_box (Text "No thumb") it, cache, gets).
Proof. intros H. unfold _download_thumb. by rewrite H. Qed.


Lemma download_thumb_miss (get : string -> outcome Response.t)
    (image : TextualImage)
    (it : SearchResultItem.t) (cache : gmap (option string) (list byte))
    (gets : list string) :
  thumb_url it <> "" ->
  cache !! video_id it = None ->
  _download_thumb get image it cache gets =
    (show image (fetched get it) it,
     match fetched get it with
     | Some content => <[video_id it := content]> cache
     | None => cache
     end,
     gets ++ [thumb_url it]).
Proof.
  intros Hurl Hmiss. unfold _download_thumb, fetched.
  rewrite (eqb_empty_false _ Hurl), Hmiss.
  destruct (get (thumb_url it)) as [response|e]; [|done].
  by destruct (Response.status_code response =? 200).
Qed.




(** * Further properties of the source *)

Import YTPlayerApp.

(** ** Time formatting *)

Lemma int_nonneg (q : Q) : (0 <= q)%Q -> 0 <= int q.
Proof.
  unfold Qle, int. simpl. intros H.
  apply Z.quot_pos; lia.
Qed.

Lemma Qltb_0_false (q : Q) : (0 <= q)%Q -> Qltb q 0%Q = false.
Proof.
  intros H. unfold Qltb. apply Qle_bool_iff in H. by rewrite H.
Qed.

Lemma fmt_02d_length_nat (n : nat) :
  (n < 60)%nat -> String.length (fmt_02d (Z.of_nat n)) = 2%nat.
Proof.
  intros H. do 60 (destruct n as [|n]; [reflexivity|]). lia.
Qed.

Lemma fmt_02d_length (z : Z) : 0 <= z < 60 -> String.length (fmt_02d z) = 2%nat.
Proof.
  intros H. rewrite <- (Z2Nat.id z) by lia. apply fmt_02d_length_nat. lia.
Qed.

(** X1. For a non-negative number of seconds [_fmt_time] shows the whole
    seconds, split into hours, minutes below 60 and seconds below 60 that
    add up to them; minutes and seconds always take two characters, and the
    hours are shown only when there are any. A negative number of seconds
    is shown as "00:00". *)
Theorem fmt_time_fields (seconds : Q) :
  (0 <= seconds)%Q ->
  let secs := int seconds in
  let h := secs / 3600 in
  let m := (secs / 60) mod 60 in
  let s := secs mod 60 in
  0 <= secs
  /\ secs = h * 3600 + m * 60 + s
  /\ 0 <= m < 60 /\ 0 <= s < 60
  /\ String.length (fmt_02d m) = 2%nat
  /\ String.length (fmt_02d s) = 2%nat
  /\ _fmt_time seconds =
       (if h =? 0 then fmt_02d m +:+ ":" +:+ fmt_02d s
        else str h +:+ ":" +:+ fmt_02d m +:+ ":" +:+ fmt_02d s)
  /\ (forall q, (q < 0)%Q -> _fmt_time q = "00:00").
Proof.
  intros Hs secs h m s.
  assert (Hsecs : 0 <= secs) by by apply int_nonneg.
  assert (Hm : 0 <= m < 60) by (unfold m; apply Z.mod_pos_bound; lia).
  assert (Hss : 0 <= s < 60) by (unfold s; apply Z.mod_pos_bound; lia).
  split; [done|]. split.
  { unfold h, m, s. Z.div_mod_to_equations. lia. }
  split; [done|]. split; [done|].
  split; [by apply fmt_02d_length|]. split; [by apply fmt_02d_length|].
  split.
  - unfold _fmt_time, divmod. rewrite (Qltb_0_false _ Hs).
    fold secs. cbv zeta.
    replace (secs / 60 / 60) with h
      by (unfold h; rewrite Z.div_div by lia; done).
    fold m s. unfold truthyZ. by destruct (h =? 0).
  - intros q Hq. unfold _fmt_time, Qltb.
    destruct (Qle_bool 0 q) eqn:Hle; [|done].
    apply Qle_bool_iff in Hle. exfalso. by apply (Qle_not_lt 0 q).
Qed.

Lemma fmt_time_fields_witness :
  (0 <= 3725 # 1)%Q /\ _fmt_time (3725 # 1)%Q = "1:02:05".
Proof.
  split; [done|].
  pose proof (fmt_time_fields (3725 # 1)%Q ltac:(done)) as H.
  simpl in H. destruct H as (_ & _ & _ & _ & _ & _ & H & _).
  rewrite H. reflexivity.
Defined.

(** ** The progress display *)

Lemma Qltb_lt (a b : Q) : Qltb a b = true <-> (a < b)%Q.
Proof.
  unfold Qltb. destruct (Qle_bool b a) eqn:H; simpl.
  - apply Qle_bool_iff in H. split; [done|].
    intros Hlt. exfalso. by apply (Qle_not_lt b a).
  - split; [|done]. intros _. apply Qnot_le_lt. intros Hle.
    apply Qle_bool_iff in Hle. congruence.
Qed.

Lemma maxQ_0_nonneg (q : Q) : (0 <= maxQ q 0)%Q.
Proof.
  unfold maxQ, Qltb. destruct (Qle_bool 0 q) eqn:H; simpl.
  - by apply Qle_bool_iff.
  - apply Qle_refl.
Qed.

Lemma tick_total_pos (position duration : option Q) :
  (0 < tick_total position duration)%Q.
Proof.
  unfold tick_total. destruct duration as [d|]; [|done].
  destruct (Qeq_bool d 0); [done|].
  destruct (Qle_bool d 0) eqn:Hle.
  - apply Qltb_lt, maxQ_1_pos.
  - apply Qltb_lt. unfold Qltb. by rewrite Hle.
Qed.

(** Everything a tick of an active engine writes. The percentage is
    computed first: when it is no finite float, [int] raises and nothing is
    written. The remaining time is formatted last: when it is no finite
    float, the three updates before it stay. *)
Lemma tick_display (position duration : option Q) (self : t) :
  let curr := or_ truthyQ position 0%Q in
  let total := tick_total position duration in
  let s := engine_reports position duration self in
  exec update_progress s =
    match int_float (fmul (fdiv curr total) 100%Q) with
    | Returned percent =>
        let s3 :=
          set_elapsed_label (_fmt_time curr)
            (set_progress_label (str percent +:+ "%")
               (set_progress_bar (Bar total curr) s)) in
        match _fmt_time_float (max_float (fsub total curr) 0%Q) with
        | Returned text => set_remaining_label ("-" +:+ text) s3
        | Raised _ => s3
        end
    | Raised _ => s
    end.
Proof.
  intros curr total s.
  pose proof (tick_total_pos position duration) as Hpos.
  apply Qltb_lt in Hpos. fold total in Hpos.
  unfold s, exec, update_progress, try_except, mbind, app_bind, bind, read,
    write, engine_reports. simpl. fold curr.
  assert (Ht : (if negb (truthyQ (or_ truthyQ duration 1%Q))
                   || Qle_bool (or_ truthyQ duration 1%Q) 0%Q
                then maxQ curr 1%Q else or_ truthyQ duration 1%Q) = total).
  { unfold total, tick_total. fold curr.
    destruct duration as [d|]; simpl; [|done].
    unfold truthyQ. destruct (Qeq_bool d 0) eqn:Hz; simpl; [done|].
    rewrite Hz. simpl. by destruct (Qle_bool d 0). }
  rewrite Ht, Hpos.
  destruct (int_float _) as [percent|e]; [|done].
  by destruct (_fmt_time_float _).
Qed.

(** X2. Whatever position and duration an active engine reports, missing
    ones included, the tick computes with a duration above zero, so it
    never divides by zero. When the percentage is a finite float, the bar,
    the percentage and the elapsed time are updated, and the remaining
    time, when finite, is shown and is never negative: it is the larger of
    zero and the float difference of duration and position. That
    difference is rounded as floats are: with the floats nearest to 100.3
    and 0.3 it is 100 exactly, shown as 01:40. A percentage beyond the
    floats leaves the display as it was, and so does a difference beyond
    them for the remaining time. *)
Theorem tick_total_positive (position duration : option Q) (self : t) :
  let curr := or_ truthyQ position 0%Q in
  let total := tick_total position duration in
  let s := engine_reports position duration self in
  let self' := exec update_progress s in
  (0 < total)%Q
  /\ match int_float (fmul (fdiv curr total) 100%Q) with
     | Returned percent =>
         progress_bar self' = Bar total curr
         /\ progress_label self' = str percent +:+ "%"
         /\ elapsed_label self' = _fmt_time curr
         /\ match max_float (fsub total curr) 0%Q with
            | Finite remaining =>
                (0 <= remaining)%Q
                /\ remaining_label self' = "-" +:+ _fmt_time remaining
            | Infinity _ | NaN => remaining_label self' = remaining_label self
            end
     | Raised _ => self' = s
     end
  /\ remaining_label
       (exec update_progress
          (engine_reports (Some (5404319552844595 # 18014398509481984)%Q)
                          (Some (7057985041019699 # 70368744177664)%Q) self))
     = "-01:40".
Proof.
  intros curr total s self'.
  split; [apply tick_total_pos|]. split; [|reflexivity].
  unfold self', s. rewrite tick_display. fold curr total. cbv zeta.
  destruct (int_float _) as [percent|e]; [|done].
  unfold max_float.
  destruct (fsub total curr) as [x|[|]|]; simpl; try done.
  repeat split. apply maxQ_0_nonneg.
Qed.

Lemma int_percent (q : Q) : (0 <= q)%Q -> (q <= 100)%Q -> 0 <= int q <= 100.
Proof.
  intros H0 H100. split; [by apply int_nonneg|].
  unfold Qle in *. simpl in *. unfold int.
  rewrite Z.quot_div_nonneg by lia.
  apply Z.div_le_upper_bound; lia.
Qed.

(** *** Rounding keeps a float between zero and a whole number *)

Lemma round_half_even_bounds (N D K : Z) :
  0 <= N -> 0 < D -> N <= K * D -> 0 <= round_half_even N D <= K.
Proof.
  intros HN HD HK. unfold round_half_even.
  destruct (Z.compare_spec (2 * (N mod D)) D); [destruct (Z.even _)| |];
    Z.div_mod_to_equations; nia.
Qed.

Lemma ilog2_le (n d B : Z) :
  0 < n -> 0 < d -> n <= 2 ^ B * d -> 0 <= B -> ilog2 n d <= B.
Proof.
  intros Hn Hd HB H0.
  assert (Z.log2 n - Z.log2 d <= B).
  { pose proof (Z.log2_le_mono n (d * 2 ^ B) ltac:(lia)) as Hl.
    rewrite Z.log2_mul_pow2 in Hl by lia. lia. }
  unfold ilog2. destruct (scale _ _ _) as [N D]. destruct (N <? D); lia.
Qed.

Lemma log2_mantissa (m B k : Z) :
  0 < B <= 2 ^ 52 -> 0 <= k -> m <= B * 2 ^ k -> Z.log2 m <= 52 + k.
Proof.
  intros HB Hk Hm.
  pose proof (Z.log2_le_mono m (B * 2 ^ k) Hm) as Hl.
  rewrite Z.log2_mul_pow2 in Hl by lia.
  pose proof (Z.log2_le_mono B (2 ^ 52) ltac:(lia)) as Hl'.
  rewrite Z.log2_pow2 in Hl' by lia. lia.
Qed.

Lemma round64_bounds (q : Q) (B : Z) :
  0 < B <= 2 ^ 52 -> (0 <= q)%Q -> (q <= inject_Z B)%Q ->
  exists x, round64 q = Finite x /\ (0 <= x)%Q /\ (x <= inject_Z B)%Q.
Proof.
  destruct q as [n d]. intros HB H0 Hq.
  unfold Qle in H0, Hq. simpl in H0, Hq.
  unfold round64. cbn [Qnum Qden]. rewrite Z.abs_eq by lia.
  destruct (Z.eqb_spec n 0) as [|Hn].
  { eexists. split; [done|]. unfold Qle; simpl; lia. }
  set (p := Z.max (ilog2 n (Z.pos d) - 52) (-1074)).
  assert (Hp : p <= 0).
  { pose proof (ilog2_le n (Z.pos d) 52 ltac:(lia) ltac:(lia) ltac:(nia)
                  ltac:(lia)).
    lia. }
  destruct (Z.ltb_spec n 0) as [|_]; [lia|].
  unfold scale. destruct (Z.leb_spec 0 p) as [Hp0|Hp0].
  - replace p with 0 by lia. change (2 ^ 0) with 1.
    pose proof (round_half_even_bounds n (Z.pos d * 1) B ltac:(lia) ltac:(lia)
                  ltac:(lia)) as Hm.
    pose proof (log2_mantissa (round_half_even n (Z.pos d * 1)) B 0 HB
                  ltac:(lia) ltac:(change (2 ^ 0) with 1; lia)) as Hl.
    destruct (Z.leb_spec 1024 (Z.log2 (round_half_even n (Z.pos d * 1)) + 0));
      [lia|].
    eexists. split; [done|]. unfold Qle. simpl. lia.
  - assert (Hpow : 0 < 2 ^ (- p)) by (apply Z.pow_pos_nonneg; lia).
    pose proof (round_half_even_bounds (n * 2 ^ (- p)) (Z.pos d)
                  (B * 2 ^ (- p)) ltac:(nia) ltac:(lia) ltac:(nia)) as Hm.
    pose proof (log2_mantissa (round_half_even (n * 2 ^ (- p)) (Z.pos d)) B
                  (- p) HB ltac:(lia) ltac:(lia)) as Hl.
    destruct (Z.leb_spec 1024
                (Z.log2 (round_half_even (n * 2 ^ (- p)) (Z.pos d)) + p));
      [lia|].
    eexists. split; [done|].
    rewrite Qred_correct. unfold Qle. simpl.
    rewrite Z2Pos.id by lia. lia.
Qed.

(** X3. With a duration above zero and a position between zero and the
    duration, the tick computes with the reported duration, its float
    arithmetic stays finite, and it shows a percentage between 0 and 100.
    The percentage is cut off from the float the two float operations
    give, which can lie below the exact one: position 29 of 100 shows
    28%. *)
Theorem tick_percent_bounded (p d : Q) (self : t) :
  (0 <= p)%Q -> (p <= d)%Q -> (0 < d)%Q ->
  let self' := exec update_progress (engine_reports (Some p) (Some d) self) in
  total (progress_bar self') = d
  /\ (exists percent,
        int_float (fmul (fdiv (progress (progress_bar self')) d) 100%Q)
        = Returned percent
        /\ progress_label self' = str percent +:+ "%"
        /\ 0 <= percent <= 100)
  /\ progress_label
       (exec update_progress
          (engine_reports (Some 29%Q) (Some 100%Q) self)) = "28%".
Proof.
  intros Hp Hpd Hd self'.
  assert (Htot : tick_total (Some p) (Some d) = d).
  { unfold tick_total.
    destruct (Qeq_bool d 0) eqn:Hz.
    { apply Qeq_bool_iff in Hz. rewrite Hz in Hd. by apply Qlt_irrefl in Hd. }
    destruct (Qle_bool d 0) eqn:Hle; [|done].
    apply Qle_bool_iff in Hle. exfalso. by apply (Qle_not_lt d 0). }
  set (curr := or_ truthyQ (Some p) 0%Q).
  assert (Hc0 : (0 <= curr)%Q) by (unfold curr; simpl; by destruct (truthyQ p)).
  assert (Hcd : (curr <= d)%Q).
  { unfold curr. simpl. destruct (truthyQ p); [done | by apply Qlt_le_weak]. }
  destruct (round64_bounds (curr / d) 1) as (x & Hx & Hx0 & Hx1); [lia| | |].
  { apply Qle_shift_div_l; [done|]. by rewrite Qmult_0_l. }
  { apply Qle_shift_div_r; [done|]. by rewrite Qmult_1_l. }
  destruct (round64_bounds (x * 100) 100) as (y & Hy & Hy0 & Hy1); [lia| | |].
  { by apply Qmult_le_0_compat. }
  { apply Qle_trans with (1 * 100)%Q; [|unfold Qle; simpl; lia].
    by apply Qmult_le_compat_r. }
  assert (Hpct : int_float (fmul (fdiv curr d) 100%Q) = Returned (int y)).
  { unfold fdiv. rewrite Hx. unfold fmul. by rewrite Hy. }
  assert (Hs : exec update_progress (engine_reports (Some p) (Some d) self)
               = self').
  { done. }
  unfold self' in *. rewrite tick_display in *. fold curr in Hs |- *.
  rewrite Htot, Hpct in *. cbv zeta in *.
  split; [|split; [|reflexivity]].
  - by destruct (_fmt_time_float _).
  - exists (int y).
    assert (Hbar : forall s3 : t,
              progress (progress_bar
                 match _fmt_time_float (max_float (fsub d curr) 0%Q) with
                 | Returned text => set_remaining_label ("-" +:+ text) s3
                 | Raised _ => s3
                 end) = progress (progress_bar s3)
              /\ progress_label
                 match _fmt_time_float (max_float (fsub d curr) 0%Q) with
                 | Returned text => set_remaining_label ("-" +:+ text) s3
                 | Raised _ => s3
                 end = progress_label s3).
    { intros s3. by destruct (_fmt_time_float _). }
    destruct (Hbar (set_elapsed_label (_fmt_time curr)
                (set_progress_label (str (int y) +:+ "%")
                   (set_progress_bar (Bar d curr)
                      (engine_reports (Some p) (Some d) self)))))
      as [-> ->].
    simpl. split; [exact Hpct|]. split; [done|]. by apply int_percent.
Qed.

Lemma tick_percent_bounded_witness :
  (0 <= 30 # 1)%Q /\ (30 # 1 <= 120 # 1)%Q /\ (0 < 120 # 1)%Q
  /\ total (progress_bar
              (exec update_progress
                 (engine_reports (Some (30 # 1)%Q) (Some (120 # 1)%Q) init)))
     = (120 # 1)%Q.
Proof.
  split; [done|]. split; [done|]. split; [done|].
  apply (tick_percent_bounded (30 # 1)%Q (120 # 1)%Q init); done.
Defined.

(** X4. While the engine reports that it is idle, ticks change nothing and
    read neither position nor duration: after any number of them the
    application is in the state it was in, so the display that
    [stop_playback] reset stays reset. *)
Theorem idle_ticks_change_nothing (self : t) (n : nat) :
  MPV.core_idle (AudioPlayer.mpv (player self)) = Returned true ->
  Loop.run (replicate n Loop.Interval) self = (Returned (), self)
  /\ Loop.run (replicate n Loop.Interval) (stop_playback self)
     = (Returned (), stop_playback self)
  /\ progress_label (exec (Loop.run (replicate n Loop.Interval))
                          (stop_playback self)) = "0%"
  /\ elapsed_label (exec (Loop.run (replicate n Loop.Interval))
                         (stop_playback self)) = "00:00"
  /\ remaining_label (exec (Loop.run (replicate n Loop.Interval))
                           (stop_playback self)) = "-00:00".
Proof.
  intros Hidle.
  assert (Htick : forall s,
            MPV.core_idle (AudioPlayer.mpv (player s)) = Returned true ->
            update_progress s = (Returned (), s)).
  { intros s Hs. unfold update_progress, try_except, mbind, app_bind, bind, read.
    simpl. by rewrite Hs. }
  assert (Hrun : forall s,
            MPV.core_idle (AudioPlayer.mpv (player s)) = Returned true ->
            Loop.run (replicate n Loop.Interval) s = (Returned (), s)).
  { intros s Hs. induction n as [|n IH]; [done|].
    simpl. unfold mbind, app_bind, bind. by rewrite (Htick s Hs). }
  split; [by apply Hrun|].
  assert (Hstop : Loop.run (replicate n Loop.Interval) (stop_playback self)
                  = (Returned (), stop_playback self)) by by apply Hrun.
  split; [done|]. unfold exec. by rewrite Hstop.
Qed.

Lemma idle_ticks_change_nothing_witness :
  MPV.core_idle (AudioPlayer.mpv (player init)) = Returned true
  /\ Loop.run (replicate 3 Loop.Interval) init = (Returned (), init).
Proof.
  split; [reflexivity|].
  apply (idle_ticks_change_nothing init 3). reflexivity.
Defined.

(** ** Stop and seek *)

(** X5. [stop_playback] does not cancel a pending stream resolution: the
    worker is still pending afterwards, and when it resumes with a stream
    URL the engine is told to play it after the stop and the label reads
    "Playing", while the title line still reads "Stopped"; when it resumes
    with a failure the label reads "Error". *)
Theorem stop_keeps_resolution_pending (self : t) (i : nat)
    (video_id : option string) (r : Extracted) :
  workers self !! i = Some (FetchAndPlay video_id) ->
  let stopped := stop_playback self in
  let self' := exec (Loop.handle (Loop.Extract i r)) stopped in
  workers stopped !! i = Some (FetchAndPlay video_id)
  /\ engine_log stopped = engine_log self ++ [MPV.Stop]
  /\ now_playing_label self' = "Stopped"
  /\ progress_label self' = "0%"
  /\ match stream_url r with
     | Returned play_url =>
         engine_log self' = engine_log self ++ [MPV.Stop; MPV.Play play_url]
         /\ state_label self' = "Playing"
     | Raised e =>
         engine_log self' = engine_log self ++ [MPV.Stop]
         /\ state_label self' = "Error"
         /\ status_line self' = exn_msg e
     end.
Proof.
  intros Hi stopped self'.
  assert (Hs : workers stopped !! i = Some (FetchAndPlay video_id)) by done.
  split; [done|]. split; [done|].
  unfold self'. rewrite (resume_fetch_exec i r stopped video_id Hs).
  destruct (stream_url r); simpl; repeat split; try done.
  unfold engine_log. simpl. by rewrite <- app_assoc.
Qed.

Lemma stop_keeps_resolution_pending_witness :
  workers (play_video item_a init) !! 1%nat = Some (FetchAndPlay (Some "idA"))
  /\ engine_log
       (exec (Loop.handle (Loop.Extract 1 (resolved "https://cdn/a")))
             (stop_playback (play_video item_a init)))
     = [MPV.SetVolume 80; MPV.Stop; MPV.Play "https://cdn/a"].
Proof.
  split; [reflexivity|].
  pose proof (stop_keeps_resolution_pending (play_video item_a init) 1
                (Some "idA") (resolved "https://cdn/a") eq_refl) as H.
  simpl in H. destruct H as (_ & _ & _ & _ & H & _). exact H.
Defined.

(** The bound keys and their actions. *)
Lemma action_keys :
  Loop.action "space" = write toggle_play_pause
  /\ Loop.action "left" = action_seek_backward
  /\ Loop.action "right" = action_seek_forward
  /\ Loop.action "enter" = write play_selected
  /\ Loop.action "n" = next_item
  /\ Loop.action "p" = prev_item
  /\ Loop.action "s" = write stop_playback
  /\ Loop.action "0" = write action_volume_up
  /\ Loop.action "9" = write action_volume_down.
Proof. repeat split; reflexivity. Qed.

(** X6. The seek keys show their notice whether or not anything was
    sought: with an idle engine nothing is sent to it, with an active one
    the seek by 10 seconds forward or backward is sent, and in both cases
    the notice is added. *)
Theorem seek_notifies_even_when_idle (self : t) (idle : bool) :
  MPV.core_idle (AudioPlayer.mpv (player self)) = Returned idle ->
  let fwd := exec (Loop.handle (Loop.Key "right")) self in
  let bwd := exec (Loop.handle (Loop.Key "left")) self in
  engine_log fwd = engine_log self ++ (if idle then [] else [MPV.Seek 10])
  /\ notifications fwd = notifications self ++ [Notify "Seek +10s" "information"]
  /\ engine_log bwd = engine_log self ++ (if idle then [] else [MPV.Seek (-10)])
  /\ notifications bwd = notifications self ++ [Notify "Seek -10s" "information"]
  /\ raised (Loop.handle (Loop.Key "right")) self = None
  /\ raised (Loop.handle (Loop.Key "left")) self = None.
Proof.
  intros Hidle.
  destruct action_keys as (_ & Hl & Hr & _).
  unfold exec, raised, engine_log. simpl. rewrite Hl, Hr.
  unfold action_seek_forward, action_seek_backward, AudioPlayer.seek,
    mbind, app_bind, outcome_bind, bind, Py.bind, read, write.
  simpl. rewrite Hidle. destruct idle; simpl; by rewrite ?app_nil_r.
Qed.

Lemma seek_notifies_even_when_idle_witness :
  MPV.core_idle (AudioPlayer.mpv (player init)) = Returned true
  /\ notifications (exec (Loop.handle (Loop.Key "right")) init)
     = [Notify "Seek +10s" "information"].
Proof.
  split; [reflexivity|].
  apply (seek_notifies_even_when_idle init true). reflexivity.
Defined.

(** X7. A failure while reading [core_idle] is not caught in the seek
    actions: the handler raises it before anything is written, and the
    event loop ends there, in the state it was in, whatever events
    follow. *)
Theorem seek_read_failure_ends_loop (self : t) (e : exn)
    (evs : list Loop.Event) :
  MPV.core_idle (AudioPlayer.mpv (player self)) = Raised e ->
  Loop.run (Loop.Key "right" :: evs) self = (Raised e, self)
  /\ Loop.run (Loop.Key "left" :: evs) self = (Raised e, self).
Proof.
  intros Hfail. destruct action_keys as (_ & Hl & Hr & _).
  simpl. rewrite Hl, Hr.
  unfold action_seek_forward, action_seek_backward, AudioPlayer.seek,
    mbind, app_bind, outcome_bind, bind, Py.bind, read, write.
  simpl. by rewrite Hfail.
Qed.

Lemma seek_read_failure_ends_loop_witness :
  let e := Exception "ShutdownError" "core has shut down" in
  let s := Loop.set_engine (Returned None) (Returned None) (Raised e) init in
  MPV.core_idle (AudioPlayer.mpv (player s)) = Raised e
  /\ Loop.run [Loop.Key "right"; Loop.Key "0"] s = (Raised e, s).
Proof.
  split; [reflexivity|].
  apply (seek_read_failure_ends_loop
           (Loop.set_engine (Returned None) (Returned None)
              (Raised (Exception "ShutdownError" "core has shut down")) init)
           (Exception "ShutdownError" "core has shut down") [Loop.Key "0"]).
  reflexivity.
Defined.

(** ** Volume *)

(** X8. With the volume within [0, 150], volume up followed by volume down
    gives the level back unless the step up hit the ceiling, where the
    level ends at 145; volume down followed by volume up gives it back
    unless the step down hit the floor, where it ends at 5. *)
Theorem volume_round_trip (self : t) (v : Z) :
  MPV.volume (AudioPlayer.mpv (player self)) = Some v ->
  0 <= v <= 150 ->
  MPV.volume (AudioPlayer.mpv (player (action_volume_down (action_volume_up self))))
    = Some (Z.min v 145)
  /\ MPV.volume (AudioPlayer.mpv (player (action_volume_up (action_volume_down self))))
    = Some (Z.max v 5).
Proof.
  intros Hv Hr. unfold action_volume_up, action_volume_down.
  rewrite !change_volume_eq. simpl.
  rewrite Hv. simpl. unfold clamp. split; f_equal; lia.
Qed.

Lemma volume_round_trip_witness :
  MPV.volume (AudioPlayer.mpv (player init)) = Some 80
  /\ 0 <= 80 <= 150
  /\ MPV.volume (AudioPlayer.mpv
                   (player (action_volume_down (action_volume_up init))))
     = Some 80.
Proof.
  split; [reflexivity|]. split; [lia|].
  apply (volume_round_trip init 80); [reflexivity | lia].
Defined.

(** ** What a search appends *)

(** The loop of [perform_search] appends the items of the entries, in their
    order, and touches nothing else. *)
Lemma foldl_append_entry (es : list Entry.t) (s : t) :
  foldl append_entry s es =
    set_results_list
      (ListView.Build
         (ListView.children (results_list s) ++ (item_of <$> es))
         (ListView.index (results_list s)))
      s.
Proof.
  revert s. induction es as [|e es IH]; intros s.
  - simpl. rewrite app_nil_r. destruct s as [? ? ? ? ? [ch idx]]. reflexivity.
  - simpl foldl. rewrite IH. unfold append_entry, ListView.append. simpl.
    by rewrite <- app_assoc.
Qed.

(** ** Invariants of the event loop *)

Ltac keeps_rules tac :=
  repeat first
    [ apply keeps_ret | apply keeps_read
    | apply keeps_bind; [|intros ?]
    | apply keeps_try_except; [|intros ?]
    | apply keeps_try_finally
    | apply keeps_write; intros ? ?; tac
    | match goal with |- keeps _ (if ?c then _ else _) => destruct c end
    | match goal with |- keeps _ (match ?c with _ => _ end) => destruct c end ].

Ltac volume_frame :=
  unfold volume_is in *;
  rewrite ?foldl_append_entry;
  unfold on_input_submitted, toggle_play_pause, play_selected,
    action_select_cursor, stop_playback, on_list_view_selected,
    Loop.resume_thumb, Loop.set_engine;
  cbv zeta; simpl; repeat case_match; simpl; assumption.

Lemma shift_selection_volume (o : option Z) (delta : Z) (autoplay : bool) :
  keeps (volume_is o) (shift_selection delta autoplay).
Proof.
  intros s Hs. destruct (ListView.children (results_list s)) as [|c cs] eqn:Hc.
  - unfold exec, shift_selection, mbind, app_bind, bind, read. simpl.
    by rewrite Hc.
  - destruct (shift_selection_nonempty delta autoplay s c cs Hc)
      as (item & _ & _ & Heq).
    unfold exec. rewrite Heq. by destruct autoplay.
Qed.

Lemma action_seek_volume (o : option Z) :
  keeps (volume_is o) action_seek_forward
  /\ keeps (volume_is o) action_seek_backward.
Proof.
  split; intros s Hs;
    unfold exec, action_seek_forward, action_seek_backward, AudioPlayer.seek,
      mbind, app_bind, outcome_bind, bind, Py.bind, read, write; simpl;
    destruct (MPV.core_idle (AudioPlayer.mpv (player s))) as [[|]|e]; done.
Qed.

Lemma volume_action_in_range (s : t) :
  volume_in_range (action_volume_up s) /\ volume_in_range (action_volume_down s).
Proof.
  unfold volume_in_range, action_volume_up, action_volume_down.
  rewrite !change_volume_eq. simpl.
  split; eexists; (split; [done|]); unfold clamp; lia.
Qed.

Lemma frame_volume_in_range {A} (m : M A) :
  (forall o, keeps (volume_is o) m) -> keeps volume_in_range m.
Proof.
  intros H s (v & Hv & Hr). exists v. split; [|done]. by apply (H (Some v) s).
Qed.

Lemma handle_volume_in_range (ev : Loop.Event) :
  keeps volume_in_range (Loop.handle ev).
Proof.
  destruct ev; simpl.
  - apply frame_volume_in_range. intros o. keeps_rules volume_frame.
  - unfold Loop.action.
    repeat (match goal with |- context [String.eqb key ?k] =>
              destruct (String.eqb key k) end;
            [first [ apply keeps_write; intros s _; apply volume_action_in_range
                   | apply frame_volume_in_range; intros o;
                     first [ apply shift_selection_volume
                           | apply action_seek_volume
                           | keeps_rules volume_frame ] ]|]).
    apply keeps_ret.
  - unfold Loop.on_button_pressed.
    repeat (match goal with |- context [String.eqb btn_id ?k] =>
              destruct (String.eqb btn_id k) end;
            [apply frame_volume_in_range; intros o;
             first [ apply shift_selection_volume
                   | keeps_rules volume_frame ]|]).
    apply keeps_ret.
  - apply frame_volume_in_range. intros o. unfold Loop.deliver.
    keeps_rules volume_frame.
  - apply frame_volume_in_range. intros o. unfold update_progress.
    keeps_rules volume_frame.
  - apply frame_volume_in_range. intros o.
    unfold Loop.resume_extract, perform_search, fetch_and_play.
    keeps_rules volume_frame.
  - apply frame_volume_in_range. intros o.
    unfold Loop.resume_http, _download_and_set.
    keeps_rules volume_frame.
  - apply frame_volume_in_range. intros o. keeps_rules volume_frame.
  - apply frame_volume_in_range. intros o. keeps_rules volume_frame.
Qed.

(** X9. Over every run of the event loop from start-up, whatever the user,
    the network and the engine do, the engine's volume is set and stays
    within [0, 150]. *)
Theorem volume_always_in_range (evs : list Loop.Event) :
  volume_in_range (exec (Loop.run evs) init)
  /\ MPV.volume (AudioPlayer.mpv (player init)) = Some 80.
Proof.
  split; [|done].
  apply keeps_run; [apply handle_volume_in_range|].
  exists 80. split; [done | lia].
Qed.

Ltac label_frame :=
  unfold known_label in *;
  rewrite ?foldl_append_entry;
  unfold on_input_submitted, toggle_play_pause, play_selected,
    action_select_cursor, stop_playback, on_list_view_selected,
    action_volume_up, action_volume_down,
    Loop.resume_thumb, Loop.set_engine;
  cbv zeta; simpl; repeat case_match; simpl;
  first [assumption | by repeat constructor].

Lemma shift_selection_label (delta : Z) (autoplay : bool) :
  keeps known_label (shift_selection delta autoplay).
Proof.
  intros s Hs. destruct (ListView.children (results_list s)) as [|c cs] eqn:Hc.
  - unfold exec, shift_selection, mbind, app_bind, bind, read. simpl.
    by rewrite Hc.
  - destruct (shift_selection_nonempty delta autoplay s c cs Hc)
      as (item & _ & _ & Heq).
    unfold exec. rewrite Heq. unfold known_label in *.
    destruct autoplay; simpl; [by repeat constructor | done].
Qed.

Lemma handle_known_label (ev : Loop.Event) :
  keeps known_label (Loop.handle ev).
Proof.
  destruct ev; simpl.
  - keeps_rules label_frame.
  - unfold Loop.action, action_seek_forward, action_seek_backward.
    repeat (match goal with |- context [String.eqb key ?k] =>
              destruct (String.eqb key k) end;
            [first [ apply shift_selection_label
                   | keeps_rules label_frame ]|]).
    apply keeps_ret.
  - unfold Loop.on_button_pressed.
    repeat (match goal with |- context [String.eqb btn_id ?k] =>
              destruct (String.eqb btn_id k) end;
            [first [ apply shift_selection_label
                   | keeps_rules label_frame ]|]).
    apply keeps_ret.
  - unfold Loop.deliver. keeps_rules label_frame.
  - unfold update_progress. keeps_rules label_frame.
  - unfold Loop.resume_extract, perform_search, fetch_and_play.
    keeps_rules label_frame.
  - unfold Loop.resume_http, _download_and_set. keeps_rules label_frame.
  - keeps_rules label_frame.
  - keeps_rules label_frame.
Qed.

(** X10. Over every run of the event loop from start-up the state label
    shows one of the five texts "Stopped", "Loading", "Playing", "Paused"
    and "Error", so the session state read off the label is always
    defined. *)
Theorem state_label_always_known (evs : list Loop.Event) :
  known_label (exec (Loop.run evs) init)
  /\ is_Some (session_state (exec (Loop.run evs) init)).
Proof.
  assert (H : known_label (exec (Loop.run evs) init)).
  { apply keeps_run; [apply handle_known_label|].
    unfold known_label. simpl. by repeat constructor. }
  split; [done|].
  unfold known_label in H. unfold session_state.
  set (s := exec (Loop.run evs) init) in *.
  repeat (apply elem_of_cons in H as [-> | H]; [simpl; by repeat case_match|]).
  by apply elem_of_nil in H.
Qed.

Ltac cursor_frame :=
  unfold cursor_in_bounds in *;
  rewrite ?foldl_append_entry;
  unfold on_input_submitted, toggle_play_pause, play_selected,
    action_select_cursor, stop_playback, on_list_view_selected,
    action_volume_up, action_volume_down,
    Loop.resume_thumb, Loop.set_engine;
  cbv zeta; simpl; repeat case_match; simpl in *; simplify_eq;
  repeat match goal with
         | H : ListView.children (results_list ?s) = _
           |- context [ListView.children (results_list ?s)] => rewrite H
         end;
  rewrite ?length_app, ?length_insert; simpl; first [done | lia].

Lemma shift_selection_cursor (delta : Z) (autoplay : bool) :
  keeps cursor_in_bounds (shift_selection delta autoplay).
Proof.
  intros s Hs. destruct (ListView.children (results_list s)) as [|c cs] eqn:Hc.
  - unfold exec, shift_selection, mbind, app_bind, bind, read. simpl.
    by rewrite Hc.
  - destruct (shift_selection_nonempty delta autoplay s c cs Hc)
      as (item & _ & Hr & Heq).
    unfold exec. rewrite Heq. unfold cursor_in_bounds.
    destruct autoplay; simpl; simpl in Hr; lia.
Qed.

Lemma handle_cursor_in_bounds (ev : Loop.Event) :
  keeps cursor_in_bounds (Loop.handle ev).
Proof.
  destruct ev; simpl.
  - keeps_rules cursor_frame.
  - unfold Loop.action, action_seek_forward, action_seek_backward.
    repeat (match goal with |- context [String.eqb key ?k] =>
              destruct (String.eqb key k) end;
            [first [ apply shift_selection_cursor
                   | keeps_rules cursor_frame ]|]).
    apply keeps_ret.
  - unfold Loop.on_button_pressed.
    repeat (match goal with |- context [String.eqb btn_id ?k] =>
              destruct (String.eqb btn_id k) end;
            [first [ apply shift_selection_cursor
                   | keeps_rules cursor_frame ]|]).
    apply keeps_ret.
  - unfold Loop.deliver. keeps_rules cursor_frame.
  - unfold update_progress. keeps_rules cursor_frame.
  - unfold Loop.resume_extract, perform_search, fetch_and_play.
    keeps_rules cursor_frame.
  - unfold Loop.resume_http, _download_and_set. keeps_rules cursor_frame.
  - keeps_rules cursor_frame.
  - keeps_rules cursor_frame.
Qed.

(** X11. Over every run of the event loop from start-up - searches that
    clear and refill the list, enter, next and previous, thumbnails
    arriving - the highlighted index of the result list is either unset or
    the index of an item of the list. *)
Theorem cursor_always_in_bounds (evs : list Loop.Event) :
  cursor_in_bounds (exec (Loop.run evs) init)
  /\ match ListView.index (results_list (exec (Loop.run evs) init)) with
     | Some i =>
         is_Some (ListView.child i (results_list (exec (Loop.run evs) init)))
     | None => True
     end.
Proof.
  assert (H : cursor_in_bounds (exec (Loop.run evs) init)).
  { apply keeps_run; [apply handle_cursor_in_bounds | done]. }
  split; [done|]. unfold cursor_in_bounds in H.
  destruct (ListView.index _) as [i|]; [|done].
  unfold ListView.child. destruct (Z.ltb_spec i 0); [lia|].
  apply lookup_lt_is_Some. lia.
Qed.

(** ** A search from submit to result *)

(** X12. A non-empty query submitted while no search is busy starts one
    search and clears the list. When [extract_info] answers, the list holds
    exactly the items of the entries, in their order - none when the answer
    has no entries or is a failure, so the results of the search before are
    gone in every case - nothing is highlighted, the status line reports
    the ending, the busy flag is clear and no worker is left. *)
Theorem search_replaces_results (self : t) (query : string) (r : Extracted) :
  query <> "" ->
  default false (_search_busy self) = false ->
  let s1 := exec (Loop.handle (Loop.InputSubmitted query)) self in
  let s2 := exec (Loop.handle (Loop.Extract 0 r)) s1 in
  workers s1 = [PerformSearch query]
  /\ results_list s1 = ListView.empty
  /\ status_line s1 = "Searching for '" +:+ query +:+ "'..."
  /\ ListView.children (results_list s2) =
       match ending r with
       | Found e es => item_of <$> (e :: es)
       | NoResults | Failure _ => []
       end
  /\ ListView.index (results_list s2) = None
  /\ status_line s2 =
       match ending r with
       | Found _ _ => ""
       | NoResults => "No results found."
       | Failure msg => "Search failed: " +:+ msg
       end
  /\ _search_busy s2 = Some false
  /\ workers s2 = [].
Proof.
  intros Hq Hb s1 s2.
  assert (Hs1 : s1 =
    run_worker (PerformSearch query) true
      (set_status_line ("Searching for '" +:+ query +:+ "'...")
         (set_results_list (ListView.clear (results_list self))
            (set_search_busy (Some true) self)))).
  { unfold s1, exec. simpl. unfold on_input_submitted.
    by rewrite (eqb_empty_false query Hq), Hb. }
  split; [by rewrite Hs1|]. split; [by rewrite Hs1|]. split; [by rewrite Hs1|].
  unfold s2. rewrite Hs1. clear.
  unfold exec. simpl.
  unfold Loop.resume_extract, perform_search, try_finally, try_except,
    mbind, app_bind, bind, read, write.
  simpl.
  destruct r as [[[[[|e es]|] u]|]|e]; simpl; try done.
  rewrite (foldl_append_entry es). done.
Qed.

Lemma search_replaces_results_witness :
  let r := Returned
             (Some (Info.Build
                      (Some [Entry.Build (Some "Song") None (Some "x1");
                             Entry.Build None (Some "Band") (Some "x2")])
                      None)) in
  "lofi" <> "" /\ default false (_search_busy init) = false
  /\ ListView.children
       (results_list
          (exec (Loop.handle (Loop.Extract 0 r))
                (exec (Loop.handle (Loop.InputSubmitted "lofi")) init)))
     = [item_of (Entry.Build (Some "Song") None (Some "x1"));
        item_of (Entry.Build None (Some "Band") (Some "x2"))].
Proof.
  split; [done|]. split; [reflexivity|].
  apply (search_replaces_results init "lofi"
    (Returned
       (Some (Info.Build
                (Some [Entry.Build (Some "Song") None (Some "x1");
                       Entry.Build None (Some "Band") (Some "x2")])
                None))));
    [done | reflexivity].
Defined.

(** X13. Every item a search appends carries a thumbnail URL built from
    the id of its entry (from the text None when the entry has no id), so
    it is never empty: the thumbnail worker of such an item always looks in
    the cache and, when the id is not cached, requests exactly that URL
    once and caches what a 200 response brings under the id. The box shows
    the image when the response brought bytes and [TextualImage] opens
    them; with no bytes, or bytes it raises on, the box reads "No thumb",
    and the bytes of a 200 response are cached all the same. *)
Theorem search_item_thumbnail (entry : Entry.t)
    (get : string -> outcome Response.t) (image : TextualImage)
    (cache : gmap (option string) (list byte)) (gets : list string) :
  cache !! Entry.id entry = None ->
  let item := item_of entry in
  let url :=
    "https://i.ytimg.com/vi/" +:+ str_opt (Entry.id entry) +:+ "/hqdefault.jpg" in
  let result := SearchResultItem._download_thumb get image item cache gets in
  append_entry init entry =
    set_results_list (ListView.Build [item] None) init
  /\ SearchResultItem.thumb_url item = url
  /\ url <> ""
  /\ result.2 = gets ++ [url]
  /\ result.1.2 !! Entry.id entry = fetched get item
  /\ result.1.1 = SearchResultItem.show image (fetched get item) item
  /\ SearchResultItem.thumb_box result.1.1 =
       match fetched get item with
       | Some (b :: bs) =>
           match image (b :: bs) with
           | Returned _ => SearchResultItem.Image (b :: bs)
           | Raised _ => SearchResultItem.Text "No thumb"
           end
       | Some [] | None => SearchResultItem.Text "No thumb"
       end.
Proof.
  intros Hmiss item url result.
  assert (Hurl : SearchResultItem.thumb_url item <> "") by done.
  split; [done|]. split; [done|]. split; [done|].
  unfold result.
  rewrite (download_thumb_miss get image item cache gets Hurl Hmiss). simpl.
  split; [done|]. split.
  { destruct (fetched get item); [apply lookup_insert_eq | done]. }
  split; [done|].
  destruct (fetched get item) as [[|b bs]|]; simpl; try done.
  by destruct (image (b :: bs)).
Qed.

Lemma search_item_thumbnail_witness :
  (∅ : gmap (option string) (list byte)) !! (None : option string) = None
  /\ let result :=
       SearchResultItem._download_thumb serve_jpeg opens_gif
         (item_of (Entry.Build (Some "Song") None None)) ∅ [] in
     result.2 = ["https://i.ytimg.com/vi/None/hqdefault.jpg"]
     /\ result.1.2 !! (None : option string) = Some jpeg
     /\ SearchResultItem.thumb_box result.1.1
        = SearchResultItem.Text "No thumb".
Proof.
  split; [reflexivity|].
  pose proof (search_item_thumbnail (Entry.Build (Some "Song") None None)
                serve_jpeg opens_gif ∅ [] eq_refl) as H.
  destruct H as (_ & _ & _ & Hg & Hc & _ & Hb).
  split; [exact Hg|]. split; [exact Hc|exact Hb].
Defined.

(** ** Selecting from the list *)

(** X14. Enter on a list with items and nothing highlighted highlights the
    first item and posts [Selected] for it; when the message is delivered
    the item becomes the current one, the label reads "Loading" and its
    thumbnail and stream workers are started. On an empty list enter posts
    nothing and starts nothing. *)
Theorem enter_plays_first_item (self : t) (c : SearchResultItem.t)
    (cs : list SearchResultItem.t) :
  ListView.children (results_list self) = c :: cs ->
  ListView.index (results_list self) = None ->
  messages self = [] ->
  let s1 := exec (Loop.handle (Loop.Key "enter")) self in
  let s2 := exec (Loop.handle Loop.Deliver) s1 in
  ListView.index (results_list s1) = Some 0
  /\ messages s1 = [Selected c]
  /\ workers s1 = workers self
  /\ messages s2 = []
  /\ current_video_id s2 = SearchResultItem.video_id c
  /\ current_title s2 = SearchResultItem.title_text c
  /\ now_playing_label s2 = "[b]" +:+ SearchResultItem.title_text c +:+ "[/b]"
  /\ state_label s2 = "Loading"
  /\ workers s2 =
       workers self ++ [DownloadAndSet (SearchResultItem.thumb_url c);
                        FetchAndPlay (SearchResultItem.video_id c)]
  /\ (forall s : t,
        ListView.children (results_list s) = [] ->
        messages (exec (Loop.handle (Loop.Key "enter")) s) = messages s
        /\ workers (exec (Loop.handle (Loop.Key "enter")) s) = workers s
        /\ ListView.index (results_list (exec (Loop.handle (Loop.Key "enter")) s))
           = ListView.index (results_list s)).
Proof.
  intros Hc Hi Hm s1 s2.
  change (Loop.handle (Loop.Key "enter")) with (write play_selected) in *.
  split_and!.
  1-9: destruct self as [? ? ? ? ? [ch idx] ? ? ? ? ? ? ? ? ? ? ws ms ?];
       simpl in Hc, Hi, Hm; subst; try reflexivity.
  - unfold s2, s1. simpl. by rewrite <- app_assoc.
  - intros s Hs.
    destruct s as [? ? ? ? ? [ch idx] ? ? ? ? ? ? ? ? ? ? ws ms ?].
    simpl in Hs. subst.
    unfold exec, write, play_selected, action_select_cursor,
      ListView.highlighted_child, ListView.child.
    simpl. by repeat case_match.
Qed.

Lemma enter_plays_first_item_witness :
  let s := set_results_list (ListView.Build [item_a; item_b] None) init in
  ListView.children (results_list s) = [item_a; item_b]
  /\ ListView.index (results_list s) = None
  /\ messages s = []
  /\ current_video_id
       (exec (Loop.handle Loop.Deliver) (exec (Loop.handle (Loop.Key "enter")) s))
     = Some "idA".
Proof.
  split; [reflexivity|]. split; [reflexivity|]. split; [reflexivity|].
  apply (enter_plays_first_item
           (set_results_list (ListView.Build [item_a; item_b] None) init)
           item_a [item_b]); reflexivity.
Defined.

(** X15. With nothing highlighted the index counts as 0: on a list of at
    least two items the first "next" goes to the second item and plays it,
    passing over the first, exactly as it does when the first item is
    highlighted; "previous" goes to the first item and plays it. *)
Theorem next_without_selection_skips_first (self : t)
    (c0 c1 : SearchResultItem.t) (cs : list SearchResultItem.t) :
  ListView.children (results_list self) = c0 :: c1 :: cs ->
  ListView.index (results_list self) = None ->
  let after_next := exec next_item self in
  let after_prev := exec prev_item self in
  ListView.index (results_list after_next) = Some 1
  /\ current_video_id after_next = SearchResultItem.video_id c1
  /\ messages after_next = messages self ++ [Selected c1]
  /\ ListView.index (results_list after_prev) = Some 0
  /\ current_video_id after_prev = SearchResultItem.video_id c0
  /\ after_next =
       exec next_item
         (set_results_list (ListView.Build (c0 :: c1 :: cs) (Some 0)) self).
Proof.
  intros Hc Hi after_next after_prev.
  destruct (move_nonempty Next self c0 (c1 :: cs) Hc)
    as (item & Hitem & _ & _ & Hnext).
  destruct (move_nonempty Prev self c0 (c1 :: cs) Hc)
    as (item' & Hitem' & _ & _ & Hprev).
  destruct (move_nonempty Next
              (set_results_list (ListView.Build (c0 :: c1 :: cs) (Some 0)) self)
              c0 (c1 :: cs) eq_refl)
    as (item0 & Hitem0 & _ & _ & Hnext0).
  rewrite Hi in *. simpl in Hitem, Hitem', Hitem0, Hnext, Hprev, Hnext0.
  assert (Hclamp1 :
    clamp 0 (Z.of_nat (S (S (length cs))) - 1) (0 + 1) = 1)
    by (unfold clamp; lia).
  assert (Hclamp0 :
    clamp 0 (Z.of_nat (S (S (length cs))) - 1) (0 + -1) = 0)
    by (unfold clamp; lia).
  rewrite Hclamp1 in *. rewrite Hclamp0 in *.
  simpl in Hitem, Hitem', Hitem0. simplify_eq.
  change (move Next) with next_item in *.
  change (move Prev) with prev_item in *.
  unfold after_next, after_prev. rewrite Hnext, Hprev, Hnext0.
  repeat split.
Qed.

Lemma next_without_selection_skips_first_witness :
  let s := set_results_list (ListView.Build [item_a; item_b] None) init in
  ListView.children (results_list s) = [item_a; item_b]
  /\ ListView.index (results_list s) = None
  /\ current_video_id (exec next_item s) = Some "idB".
Proof.
  split; [reflexivity|]. split; [reflexivity|].
  apply (next_without_selection_skips_first
           (set_results_list (ListView.Build [item_a; item_b] None) init)
           item_a item_b []); reflexivity.
Defined.

(** X16. The next key starts the stream resolution of the item it lands on
    twice: once directly, through [play_video], and once more when the
    [Selected] message it posted is delivered. Both workers are pending
    afterwards, each with its thumbnail worker, and no message is left. *)
Theorem next_starts_resolution_twice (self : t) (c : SearchResultItem.t)
    (cs : list SearchResultItem.t) :
  ListView.children (results_list self) = c :: cs ->
  messages self = [] ->
  let self' := exec (Loop.run [Loop.Key "n"; Loop.Deliver]) self in
  exists item,
    ListView.highlighted_child (results_list self') = Some item
    /\ current_video_id self' = SearchResultItem.video_id item
    /\ messages self' = []
    /\ raised (Loop.run [Loop.Key "n"; Loop.Deliver]) self = None
    /\ workers self' =
         workers self ++
           [DownloadAndSet (SearchResultItem.thumb_url item);
            FetchAndPlay (SearchResultItem.video_id item);
            DownloadAndSet (SearchResultItem.thumb_url item);
            FetchAndPlay (SearchResultItem.video_id item)].
Proof.
  intros Hc Hm self'.
  destruct (shift_selection_nonempty 1 true self c cs Hc)
    as (item & Hitem & Hr & Heq).
  cbv zeta in Hitem, Hr, Heq.
  remember (clamp 0 (Z.of_nat (length (c :: cs)) - 1)
              (default 0 (ListView.index (results_list self)) + 1)) as idx
    eqn:Hidx.
  clear Hidx. exists item.
  assert (Hrun : Loop.run [Loop.Key "n"; Loop.Deliver] self =
    (Returned (),
     play_video item
       (set_messages []
          (play_video item
             (post_message (Selected item)
                (set_results_list (ListView.Build (c :: cs) (Some idx))
                   self)))))).
  { simpl Loop.run.
    change (Loop.action "n") with (shift_selection 1 true).
    unfold mbind at 1, app_bind, bind at 1. rewrite Heq.
    unfold Loop.deliver, mbind, app_bind, bind, read, write.
    simpl. by rewrite Hm. }
  unfold self', exec, raised. rewrite Hrun. simpl.
  split.
  { unfold ListView.highlighted_child, ListView.child. simpl.
    destruct (Z.ltb_spec idx 0) as [Hlt|_]; [lia | exact Hitem]. }
  split; [done|]. split; [done|]. split; [done|].
  by rewrite <- !app_assoc.
Qed.

Lemma next_starts_resolution_twice_witness :
  let s := set_results_list (ListView.Build [item_a; item_b] (Some 0)) init in
  ListView.children (results_list s) = [item_a; item_b]
  /\ messages s = []
  /\ raised (Loop.run [Loop.Key "n"; Loop.Deliver]) s = None.
Proof.
  split; [reflexivity|]. split; [reflexivity|].
  destruct (next_starts_resolution_twice
              (set_results_list (ListView.Build [item_a; item_b] (Some 0)) init)
              item_a [item_b] eq_refl eq_refl) as (item & _ & _ & _ & H & _).
  exact H.
Defined.

(** ** Buttons *)

(** X17. Three of the four buttons do what their keys do: play/pause is
    the space key, stop is the s key and next is the n key. The previous
    button has no branch in [on_button_pressed]: pressing it changes
    nothing, whereas the p key on a list with items posts [Selected] and
    plays the item it lands on. *)
Theorem previous_button_does_nothing (self : t) (c : SearchResultItem.t)
    (cs : list SearchResultItem.t) :
  ListView.children (results_list self) = c :: cs ->
  Loop.handle (Loop.ButtonPressed "btn_prev") self = (Returned (), self)
  /\ state_label (exec (Loop.handle (Loop.Key "p")) self) = "Loading"
  /\ length (messages (exec (Loop.handle (Loop.Key "p")) self))
     = S (length (messages self))
  /\ Loop.handle (Loop.ButtonPressed "btn_next") self
     = Loop.handle (Loop.Key "n") self
  /\ Loop.handle (Loop.ButtonPressed "btn_play_pause") self
     = Loop.handle (Loop.Key "space") self
  /\ Loop.handle (Loop.ButtonPressed "btn_stop") self
     = Loop.handle (Loop.Key "s") self.
Proof.
  intros Hc. split; [done|].
  change (Loop.handle (Loop.Key "p")) with (shift_selection (-1) true).
  destruct (shift_selection_nonempty (-1) true self c cs Hc)
    as (item & _ & _ & Heq).
  unfold exec. rewrite Heq. simpl.
  split; [done|]. split; [|done].
  rewrite length_app. simpl. lia.
Qed.

Lemma previous_button_does_nothing_witness :
  let s := set_results_list (ListView.Build [item_a; item_b] (Some 1)) init in
  ListView.children (results_list s) = [item_a; item_b]
  /\ Loop.handle (Loop.ButtonPressed "btn_prev") s = (Returned (), s).
Proof.
  split; [reflexivity|].
  apply (previous_button_does_nothing
           (set_results_list (ListView.Build [item_a; item_b] (Some 1)) init)
           item_a [item_b]).
  reflexivity.
Defined.

(** ** Answers without a stream URL *)

(** X18. When [extract_info] answers a stream resolution with a dict that
    has no 'url' key, or with [None], the engine is not called: the label
    reads "Error", the status line shows the text of the [KeyError] or the
    [TypeError], the same text is notified as an error, and the worker is
    gone. *)
Theorem resolution_without_url (self : t) (i : nat)
    (video_id : option string) (entries : option (list Entry.t)) :
  workers self !! i = Some (FetchAndPlay video_id) ->
  let no_key := exec (Loop.handle
                        (Loop.Extract i (Returned (Some (Info.Build entries None)))))
                     self in
  let none := exec (Loop.handle (Loop.Extract i (Returned None))) self in
  (engine_log no_key = engine_log self
   /\ state_label no_key = "Error"
   /\ status_line no_key = "'url'"
   /\ notifications no_key =
        notifications self ++ [Notify "Error fetching stream: 'url'" "error"]
   /\ workers no_key = delete i (workers self))
  /\ (engine_log none = engine_log self
      /\ state_label none = "Error"
      /\ status_line none = "'NoneType' object is not subscriptable"
      /\ workers none = delete i (workers self)).
Proof.
  intros Hi no_key none. unfold no_key, none.
  rewrite !(resume_fetch_exec i _ self video_id Hi). done.
Qed.

Lemma resolution_without_url_witness :
  workers (play_video item_a init) !! 1%nat = Some (FetchAndPlay (Some "idA"))
  /\ status_line
       (exec (Loop.handle
                (Loop.Extract 1 (Returned (Some (Info.Build None None)))))
             (play_video item_a init)) = "'url'".
Proof.
  split; [reflexivity|].
  apply (resolution_without_url (play_video item_a init) 1 (Some "idA") None).
  reflexivity.
Defined.

(** ** The large thumbnail *)

(** Resuming a thumbnail worker of the application removes it from the
    pending ones and runs the rest of [_download_and_set]. *)
Lemma resume_http_exec (i : nat) (r : outcome Response.t)
    (image : TextualImage) (s : t) (url : string) :
  workers s !! i = Some (DownloadAndSet url) ->
  Loop.handle (Loop.Http i r image) s =
    _download_and_set url r image (set_workers (delete i (workers s)) s).
Proof.
  intros Hi. simpl Loop.handle.
  unfold Loop.resume_http, mbind at 1, app_bind, bind, read at 1.
  simpl. by rewrite Hi.
Qed.

(** X19. Selecting an item with a thumbnail URL always requests that URL
    for the large thumbnail, whether or not the id is in the thumbnail
    cache, and the cache is neither read nor written. A failed request or
    a status other than 200 leaves the picture of the item selected before
    in place. A 200 response removes that picture; the new one takes its
    place when [TextualImage] opens the bytes, and the container stays
    empty when it raises. Nothing is raised to the event loop. *)
Theorem large_thumbnail_bypasses_cache (self : t) (item : SearchResultItem.t)
    (r : outcome Response.t) (image : TextualImage) :
  SearchResultItem.thumb_url item <> "" ->
  let selected := play_video item self in
  let i := length (workers self) in
  let self' := exec (Loop.handle (Loop.Http i r image)) selected in
  workers selected !! i = Some (DownloadAndSet (SearchResultItem.thumb_url item))
  /\ raised (Loop.handle (Loop.Http i r image)) selected = None
  /\ http_gets self' = http_gets self ++ [SearchResultItem.thumb_url item]
  /\ thumb_cache self' = thumb_cache self
  /\ thumbnail_container self' =
       match fetched (fun _ => r) item with
       | Some content =>
           match image content with
           | Returned _ => Some content
           | Raised _ => None
           end
       | None => thumbnail_container self
       end
  /\ workers self' =
       workers self ++ [FetchAndPlay (SearchResultItem.video_id item)].
Proof.
  intros Hurl selected i self'.
  assert (Hw : workers selected =
               workers self ++
                 [DownloadAndSet (SearchResultItem.thumb_url item);
                  FetchAndPlay (SearchResultItem.video_id item)]).
  { unfold selected. simpl. by rewrite <- app_assoc. }
  assert (Hi : workers selected !! i
               = Some (DownloadAndSet (SearchResultItem.thumb_url item))).
  { rewrite Hw. unfold i.
    by rewrite <- (Nat.add_0_r (length (workers self))), lookup_app_add. }
  assert (Hd : delete i (workers selected) =
               workers self ++ [FetchAndPlay (SearchResultItem.video_id item)]).
  { rewrite Hw. unfold i.
    by rewrite <- (Nat.add_0_r (length (workers self))), delete_app_add. }
  split; [done|].
  unfold self', exec, raised, fetched.
  rewrite (resume_http_exec i r image selected _ Hi), Hd.
  unfold _download_and_set. rewrite (eqb_empty_false _ Hurl).
  unfold try_except, mbind, app_bind, bind, read, write.
  destruct r as [response|e]; simpl; [|done].
  destruct (Response.status_code response =? 200); simpl; [|done].
  by destruct (image (Response.content response)).
Qed.

Lemma large_thumbnail_bypasses_cache_witness :
  let cached := set_thumb_cache {[Some "idA" := gif]} init in
  let shown := set_thumbnail_container (Some gif) cached in
  SearchResultItem.thumb_url item_a <> ""
  /\ http_gets
       (exec (Loop.handle (Loop.Http 0 (serve_gif "") opens_gif))
             (play_video item_a cached))
     = ["https://i.ytimg.com/vi/idA/hqdefault.jpg"]
  /\ thumbnail_container
       (exec (Loop.handle (Loop.Http 0 (serve_jpeg "") opens_gif))
             (play_video item_a shown))
     = None.
Proof.
  split; [done|]. split.
  - apply (large_thumbnail_bypasses_cache
             (set_thumb_cache {[Some "idA" := gif]} init) item_a
             (serve_gif "") opens_gif).
    done.
  - apply (large_thumbnail_bypasses_cache
             (set_thumbnail_container (Some gif)
                (set_thumb_cache {[Some "idA" := gif]} init)) item_a
             (serve_jpeg "") opens_gif).
    done.
Defined.
